(** * useMutationObserver: a model of the hook and of its life cycle

    The repository is one React hook, [useMutationObserver] in
    [src/index.tsx].  The hook keeps two state cells ([observer], [value]),
    builds a fresh [handleChanges] closure on every render and registers two
    effects: one that creates a [MutationObserver] and stores it in the
    [observer] cell, one that registers the observer held by the render
    against the target and returns a cleanup that disconnects it.

    The development embeds the hook body and the two effects as functions in
    a small state-and-exception monad over an [Instance]: the hook's cells,
    the memory React keeps for the two effects (last dependency arrays, last
    cleanup), the heap of [MutationObserver] objects and the log of calls the
    hook makes to the outside (browser, console, caller's transform).

    The host and the browser are modelled as far as the hook relies on them:
    - a render and its commit are one step: the passive effects of a commit
      are flushed before the next render of the component, and notification
      callbacks run between such steps, never inside one;
    - in a commit the cleanups of the effects whose dependencies changed run
      first, then the bodies of those effects in the order of the source;
      dependency arrays are compared element by element, by identity;
    - a state setter writes the cell and schedules a render; the next render
      reads the cell; given a function, the setter takes it for an updater
      and writes what the function returns on the content of the cell;
    - the browser delivers a batch only to an observer that is registered
      against a node, and [disconnect] drops every registration of the
      observer together with its undelivered records;
    - what [observe] accepts is left to the browser: it is a parameter of
      the development ([Browser]);
    - the caller's transform is a function that returns; the handles are
      used by the hook alone. *)

From stdpp Require Import gmap strings list fin_maps.

Open Scope string_scope.
Open Scope list_scope.

(** ** Values the hook receives *)

(** Objects are compared by identity in dependency arrays; an identity is a
    natural number. *)
Definition handle := nat.
Definition Element := nat.
Definition Exn := string.

Record MutationRecord := {
  mr_type : string;
  mr_target : Element;
  mr_attributeName : option string;
  mr_oldValue : option string
}.

(** [MutationObserverOptions]: every field is optional; [extra] holds the
    keys of the index signature. *)
Record MutationObserverOptions := {
  attributes : option bool;
  attributeOldValue : option bool;
  attributeFilter : option (list string);
  characterData : option bool;
  characterDataOldValue : option bool;
  childList : option bool;
  subtree : option bool;
  extra : list (string * string)
}.

Definition defaultMutationObserverOptions : MutationObserverOptions := {|
  attributes := Some true;
  attributeOldValue := None;
  attributeFilter := None;
  characterData := None;
  characterDataOldValue := None;
  childList := None;
  subtree := None;
  extra := []
|}.

(** A reference to an options object: the module constant, or an object of
    the caller with its identity. *)
Inductive OptionsRef :=
| TheDefault
| Supplied (id : nat) (o : MutationObserverOptions).

Definition deref (r : OptionsRef) : MutationObserverOptions :=
  match r with
  | TheDefault => defaultMutationObserverOptions
  | Supplied _ o => o
  end.

(** [Object.is] on two option objects. *)
Definition same_options (a b : OptionsRef) : bool :=
  match a, b with
  | TheDefault, TheDefault => true
  | Supplied i _, Supplied j _ => bool_decide (i = j)
  | _, _ => false
  end.

(** The default parameter [options = defaultMutationObserverOptions]. *)
Definition resolve_options (arg : option (nat * MutationObserverOptions)) : OptionsRef :=
  match arg with
  | None => TheDefault
  | Some (i, o) => Supplied i o
  end.

(** What [observe] does with a target and options is the browser's
    business: [observe_check t o = Some e] when the call throws [e], [None]
    when it registers. *)
Class Browser := { observe_check : Element -> MutationObserverOptions -> option Exn }.

Section Hook.

Context {T : Type} {browser : Browser}.

(** What a transform returns when it returns something.  [T] is the type of
    the values the [value] cell can hold.  The result is either a value
    that is not a function, or a function: the state setter of the host
    takes a function for an updater, so a function counts by what it
    returns on the content of the cell ([None] stands for [undefined], on
    both sides). *)
Inductive Result :=
| Plain (v : T)
| Updater (g : option T -> option T).

(** The [callback] argument as a run-time value: omitted, a value that is
    not a function, or a function (with the identity of the function
    object).  [None] as a result stands for [undefined]. *)
Inductive Callback :=
| CbUndefined
| CbNotFunction (tag : nat)
| CbFunction (id : nat) (f : list MutationRecord -> handle -> option Result).

Record Props := {
  target : option Element;
  callback : Callback;
  options : option (nat * MutationObserverOptions)
}.

(** [handleChanges] is a closure made by one render: it captures that
    render's [observer] and [callback].  [hc_id] is the identity of the
    function object. *)
Record Closure := {
  hc_id : nat;
  hc_observer : option handle;
  hc_callback : Callback
}.

(** A [MutationObserver] object: its callback and the nodes it is registered
    against. *)
Record MutationObserver := {
  mo_callback : Closure;
  mo_targets : list (Element * MutationObserverOptions)
}.

(** The cleanup returned by the second effect; it captures [observer]. *)
Record Cleanup := { cl_observer : option handle }.

(** Calls the hook makes to the outside; [Observe] carries what the call
    threw, if anything. *)
Inductive Call :=
| NewObserver (h : handle) (c : Closure)
| Observe (h : handle) (t : Element) (o : MutationObserverOptions) (thrown : option Exn)
| Disconnect (h : handle)
| ConsoleWarn (msg : string)
| ConsoleError (e : Exn)
| Invoke (id : nat) (batch : list MutationRecord) (h : handle) (result : option Result).

(** One instance of the hook.  [log] is kept most recent call first. *)
Record Instance := {
  observer : option handle;
  value : option T;
  pending : bool;
  renders : nat;
  unmounted : bool;
  deps1 : option (nat * OptionsRef);
  deps2 : option (option handle * option Element * OptionsRef);
  cleanup2 : option Cleanup;
  heap : gmap handle MutationObserver;
  next : handle;
  log : list Call
}.

Definition initial : Instance := {|
  observer := None;
  value := None;
  pending := false;
  renders := 0;
  unmounted := false;
  deps1 := None;
  deps2 := None;
  cleanup2 := None;
  heap := ∅;
  next := 0;
  log := []
|}.

(** ** The monad: state and exceptions *)

Definition M (A : Type) : Type := Instance -> (Exn + A) * Instance.

Definition ret {A} (a : A) : M A := fun s => (inr a, s).

Definition bind {A B} (m : M A) (k : A -> M B) : M B :=
  fun s =>
    match m s with
    | (inl e, s') => (inl e, s')
    | (inr a, s') => k a s'
    end.

Definition throw {A} (e : Exn) : M A := fun s => (inl e, s).

Definition try_catch {A} (m : M A) (h : Exn -> M A) : M A :=
  fun s =>
    match m s with
    | (inl e, s') => h e s'
    | (inr a, s') => (inr a, s')
    end.

Definition get : M Instance := fun s => (inr s, s).

Definition modify (f : Instance -> Instance) : M unit := fun s => (inr tt, f s).

Definition when (b : bool) (m : M unit) : M unit := if b then m else ret tt.

Notation "x <- m ;; k" := (bind m (fun x => k))
  (at level 100, m at next level, right associativity).
Notation "m ;; k" := (bind m (fun _ => k))
  (at level 100, right associativity).

Definition logged (c : Call) (s : Instance) : Instance :=
  {| observer := observer s; value := value s; pending := pending s;
     renders := renders s; unmounted := unmounted s;
     deps1 := deps1 s; deps2 := deps2 s; cleanup2 := cleanup2 s;
     heap := heap s; next := next s; log := c :: log s |}.

Definition emit (c : Call) : M unit := modify (logged c).

Definition set_heap (f : gmap handle MutationObserver -> gmap handle MutationObserver) : M unit :=
  modify (fun s => {|
    observer := observer s; value := value s; pending := pending s;
    renders := renders s; unmounted := unmounted s;
    deps1 := deps1 s; deps2 := deps2 s; cleanup2 := cleanup2 s;
    heap := f (heap s); next := next s; log := log s |}).

(** ** The host's state cells *)

(** [setObserver]: the cell takes the new value; a render is scheduled when
    the value differs from the current one. *)
Definition setObserver (o : option handle) : M unit :=
  modify (fun s => {|
    observer := o; value := value s;
    pending := pending s || negb (bool_decide (observer s = o));
    renders := renders s; unmounted := unmounted s;
    deps1 := deps1 s; deps2 := deps2 s; cleanup2 := cleanup2 s;
    heap := heap s; next := next s; log := log s |}).

(** What the state setter makes of its argument: a value that is not a
    function becomes the content of the cell; a function is called on the
    content of the cell and what it returns, which may be undefined,
    becomes the content. *)
Definition next_value (r : Result) (current : option T) : option T :=
  match r with
  | Plain v => Some v
  | Updater g => g current
  end.

(** [setValue]: values of [T] have no decidable identity here, so a render
    is always scheduled. *)
Definition stored (r : Result) (s : Instance) : Instance :=
  {| observer := observer s; value := next_value r (value s); pending := true;
     renders := renders s; unmounted := unmounted s;
     deps1 := deps1 s; deps2 := deps2 s; cleanup2 := cleanup2 s;
     heap := heap s; next := next s; log := log s |}.

Definition setValue (r : Result) : M unit := modify (stored r).

(** ** The browser and the console *)

Definition console_warn (msg : string) : M unit := emit (ConsoleWarn msg).
Definition console_error (e : Exn) : M unit := emit (ConsoleError e).

(** [new MutationObserver(cb)] *)
Definition new_MutationObserver (cb : Closure) : M handle :=
  s <- get ;;
  let h := next s in
  modify (fun s => {|
    observer := observer s; value := value s; pending := pending s;
    renders := renders s; unmounted := unmounted s;
    deps1 := deps1 s; deps2 := deps2 s; cleanup2 := cleanup2 s;
    heap := <[h := {| mo_callback := cb; mo_targets := [] |}]> (heap s);
    next := S h; log := NewObserver h cb :: log s |}) ;;
  ret h.

Definition register (t : Element) (o : MutationObserverOptions)
    (mo : MutationObserver) : MutationObserver :=
  {| mo_callback := mo_callback mo;
     mo_targets := filter (fun p => p.1 ≠ t) (mo_targets mo) ++ [(t, o)] |}.

Definition unregister_all (mo : MutationObserver) : MutationObserver :=
  {| mo_callback := mo_callback mo; mo_targets := [] |}.

(** [obs.observe(target, options)] *)
Definition observe (h : handle) (t : Element) (o : MutationObserverOptions) : M unit :=
  emit (Observe h t o (observe_check t o)) ;;
  match observe_check t o with
  | Some e => throw e
  | None => set_heap (alter (register t o) h)
  end.

(** [obs.disconnect()] *)
Definition disconnect (h : handle) : M unit :=
  emit (Disconnect h) ;;
  set_heap (alter unregister_all h).

(** ** The hook *)


Definition not_a_function : string :=
  "useMutationObserver: callback is not a function".

(** [handleChanges], lines 75-86. *)
Definition handleChanges (hc : Closure) (mutations : list MutationRecord) : M unit :=
  match hc_observer hc with
  | Some obs =>
      match hc_callback hc with
      | CbFunction id f =>
          let result := f mutations obs in
          emit (Invoke id mutations obs result) ;;
          match result with
          | Some r => setValue r
          | None => ret tt
          end
      | _ => console_warn not_a_function
      end
  | None => ret tt
  end.

(** Body of the first effect, lines 88-91. *)
Definition effect1 (hc : Closure) : M unit :=
  obs <- new_MutationObserver hc ;;
  setObserver (Some obs).

(** Body of the second effect, lines 93-106; the result is the cleanup. *)
Definition effect2 (obs : option handle) (tgt : option Element)
    (opts : OptionsRef) : M (option Cleanup) :=
  match obs, tgt with
  | Some o, Some t =>
      try_catch (observe o t (deref opts)) (fun error => console_error error) ;;
      ret (Some {| cl_observer := obs |})
  | _, _ => ret None
  end.

Definition run_cleanup (c : option Cleanup) : M unit :=
  match c with
  | Some {| cl_observer := Some o |} => disconnect o
  | _ => ret tt
  end.

(** Dependency arrays are compared element by element. *)
Definition changed1 (old : option (nat * OptionsRef)) (new : nat * OptionsRef) : bool :=
  match old with
  | None => true
  | Some (f, o) => negb (bool_decide (f = new.1) && same_options o new.2)
  end.

Definition changed2 (old : option (option handle * option Element * OptionsRef))
    (new : option handle * option Element * OptionsRef) : bool :=
  match old with
  | None => true
  | Some (ob, t, o) =>
      negb (bool_decide (ob = new.1.1) && bool_decide (t = new.1.2)
            && same_options o new.2)
  end.

Definition begin_render : M unit :=
  modify (fun s => {|
    observer := observer s; value := value s; pending := false;
    renders := S (renders s); unmounted := unmounted s;
    deps1 := deps1 s; deps2 := deps2 s; cleanup2 := cleanup2 s;
    heap := heap s; next := next s; log := log s |}).

Definition remember1 (d : nat * OptionsRef) : M unit :=
  modify (fun s => {|
    observer := observer s; value := value s; pending := pending s;
    renders := renders s; unmounted := unmounted s;
    deps1 := Some d; deps2 := deps2 s; cleanup2 := cleanup2 s;
    heap := heap s; next := next s; log := log s |}).

Definition remember2 (d : option handle * option Element * OptionsRef)
    (c : option Cleanup) : M unit :=
  modify (fun s => {|
    observer := observer s; value := value s; pending := pending s;
    renders := renders s; unmounted := unmounted s;
    deps1 := deps1 s; deps2 := Some d; cleanup2 := c;
    heap := heap s; next := next s; log := log s |}).

(** One render of [useMutationObserver] followed by its commit: the cells
    are read, the closure is made, then the cleanups of the effects whose
    dependencies changed run, then the bodies of those effects, in the order
    of the source.  The result is the returned pair [[value, observer]]. *)
Definition useMutationObserver (p : Props) : M (option T * option handle) :=
  s <- get ;;
  let observer := observer s in
  let value := value s in
  let options := resolve_options (options p) in
  let handleChanges :=
    {| hc_id := renders s; hc_observer := observer; hc_callback := callback p |} in
  let d1 := (hc_id handleChanges, options) in
  let d2 := (observer, target p, options) in
  let run1 := changed1 (deps1 s) d1 in
  let run2 := changed2 (deps2 s) d2 in
  begin_render ;;
  when run2 (run_cleanup (cleanup2 s)) ;;
  when run1 (effect1 handleChanges ;; remember1 d1) ;;
  when run2 (c <- effect2 observer (target p) options ;; remember2 d2 c) ;;
  ret (value, observer).

(** Discarding the instance: the pending cleanup runs. *)
Definition unmount : M unit :=
  s <- get ;;
  run_cleanup (cleanup2 s) ;;
  modify (fun s => {|
    observer := observer s; value := value s; pending := false;
    renders := renders s; unmounted := true;
    deps1 := deps1 s; deps2 := deps2 s; cleanup2 := None;
    heap := heap s; next := next s; log := log s |}).

(** The browser delivers a batch to the callback of an observer that is
    registered against some node. *)
Definition observing (m : gmap handle MutationObserver) (h : handle) : bool :=
  match m !! h with
  | Some mo => negb (bool_decide (mo_targets mo = []))
  | None => false
  end.

Definition is_observing (s : Instance) (h : handle) : bool := observing (heap s) h.

Definition notify (h : handle) (batch : list MutationRecord) : M unit :=
  s <- get ;;
  match heap s !! h with
  | Some mo =>
      if bool_decide (mo_targets mo = []) then ret tt
      else handleChanges (mo_callback mo) batch
  | None => ret tt
  end.

(** ** Life of an instance *)

Inductive Event :=
| Render (p : Props)
| Notify (h : handle) (batch : list MutationRecord)
| Unmount.

Definition step (e : Event) : M unit :=
  s <- get ;;
  match e with
  | Render p => if unmounted s then ret tt else (useMutationObserver p ;; ret tt)
  | Notify h batch => notify h batch
  | Unmount => if unmounted s then ret tt else unmount
  end.

Fixpoint steps (es : list Event) : M unit :=
  match es with
  | [] => ret tt
  | e :: es' => step e ;; steps es'
  end.

Definition run (es : list Event) : (Exn + unit) * Instance := steps es initial.

Definition final (es : list Event) : Instance := (run es).2.

(** ** Reading the log

    The log is most recent call first, so the tail of a log is the log at an
    earlier time. *)

(** Handles registered against a node: [observe] returned normally and
    [disconnect] was not called since. *)
Definition apply_registered (c : Call) (reg : list handle) : list handle :=
  match c with
  | Observe h _ _ None => h :: filter (fun x => x ≠ h) reg
  | Disconnect h => filter (fun x => x ≠ h) reg
  | _ => reg
  end.

Fixpoint registered (l : list Call) : list handle :=
  match l with
  | [] => []
  | c :: older => apply_registered c (registered older)
  end.

(** Handles that exist and on which [disconnect] was never called. *)
Definition apply_live (c : Call) (lv : list handle) : list handle :=
  match c with
  | NewObserver h _ => h :: lv
  | Disconnect h => filter (fun x => x ≠ h) lv
  | _ => lv
  end.

Fixpoint live (l : list Call) : list handle :=
  match l with
  | [] => []
  | c :: older => apply_live c (live older)
  end.

(** Handles created so far, most recent first. *)
Fixpoint created (l : list Call) : list handle :=
  match l with
  | [] => []
  | NewObserver h _ :: older => h :: created older
  | _ :: older => created older
  end.

(** Number of calls of [disconnect] on [h]. *)
Fixpoint disconnects (h : handle) (l : list Call) : nat :=
  match l with
  | [] => 0
  | Disconnect h' :: older =>
      (if bool_decide (h' = h) then 1 else 0) + disconnects h older
  | _ :: older => disconnects h older
  end.

(** Results of the invocations of the transform, most recent first. *)
Fixpoint invocations (l : list Call) : list (option Result) :=
  match l with
  | [] => []
  | Invoke _ _ _ r :: older => r :: invocations older
  | _ :: older => invocations older
  end.

(** What the state setter made of the defined results of the transform, in
    the order they came. *)
Fixpoint derived (l : list Call) : option T :=
  match l with
  | [] => None
  | Invoke _ _ _ (Some r) :: older => next_value r (derived older)
  | _ :: older => derived older
  end.

(** The most recent defined result of the transform. *)
Fixpoint last_result (l : list Call) : option Result :=
  match l with
  | [] => None
  | Invoke _ _ _ (Some r) :: _ => Some r
  | _ :: older => last_result older
  end.

(** Number of invocations of the transform that returned a defined result. *)
Fixpoint defined_results (l : list Call) : nat :=
  match l with
  | [] => 0
  | Invoke _ _ _ (Some _) :: older => S (defined_results older)
  | _ :: older => defined_results older
  end.

(** The handles the transform was given, most recent first. *)
Fixpoint passed_handles (l : list Call) : list handle :=
  match l with
  | [] => []
  | Invoke _ _ h _ :: older => h :: passed_handles older
  | _ :: older => passed_handles older
  end.

Fixpoint warnings (l : list Call) : nat :=
  match l with
  | [] => 0
  | ConsoleWarn _ :: older => S (warnings older)
  | _ :: older => warnings older
  end.

(** [always P l]: [P] holds of the log at every moment up to now. *)
Fixpoint always (P : list Call -> Prop) (l : list Call) : Prop :=
  P l /\ match l with
         | [] => True
         | _ :: older => always P older
         end.

(** At most one handle exists that was not disconnected. *)
Definition at_most_one_live (l : list Call) : Prop :=
  length (live l) <= 1.

(** When a handle is created, the handles created before it have been
    disconnected. *)
Definition created_after_disconnect (l : list Call) : Prop :=
  match l with
  | NewObserver _ _ :: older => live older = []
  | _ => True
  end.

(** At most one handle is registered. *)
Definition at_most_one_registered (l : list Call) : Prop :=
  length (registered l) <= 1.

(** When a handle is created, no handle is registered. *)
Definition created_when_none_registered (l : list Call) : Prop :=
  match l with
  | NewObserver _ _ :: older => registered older = []
  | _ => True
  end.

(** When a handle is registered, no other handle is. *)
Definition registered_alone (l : list Call) : Prop :=
  match l with
  | Observe _ _ _ None :: older => registered older = []
  | _ => True
  end.

Definition calm (l : list Call) : Prop :=
  at_most_one_registered l /\ created_when_none_registered l /\ registered_alone l.

(** ** A render in closed form

    On every state an instance can reach, both effects of a render run; the
    state after the commit is then the following. *)

Definition prev (k : nat) : option handle :=
  match k with
  | 0 => None
  | S j => Some j
  end.

Definition cleanup_calls (c : option Cleanup) : list Call :=
  match c with
  | Some {| cl_observer := Some o |} => [Disconnect o]
  | _ => []
  end.

Definition cleanup_heap (c : option Cleanup)
    (m : gmap handle MutationObserver) : gmap handle MutationObserver :=
  match c with
  | Some {| cl_observer := Some o |} => alter unregister_all o m
  | _ => m
  end.

Definition observe_calls (ob : option handle) (tgt : option Element)
    (o : MutationObserverOptions) : list Call :=
  match ob, tgt with
  | Some h, Some t =>
      match observe_check t o with
      | Some e => [ConsoleError e; Observe h t o (Some e)]
      | None => [Observe h t o None]
      end
  | _, _ => []
  end.

Definition observe_heap (ob : option handle) (tgt : option Element)
    (o : MutationObserverOptions)
    (m : gmap handle MutationObserver) : gmap handle MutationObserver :=
  match ob, tgt with
  | Some h, Some t =>
      match observe_check t o with
      | Some _ => m
      | None => alter (register t o) h m
      end
  | _, _ => m
  end.

Definition closure_of (p : Props) (s : Instance) : Closure :=
  {| hc_id := renders s; hc_observer := observer s; hc_callback := callback p |}.

Definition rendered (p : Props) (s : Instance) : Instance :=
  let opts := resolve_options (options p) in
  {| observer := Some (next s);
     value := value s;
     pending := true;
     renders := S (renders s);
     unmounted := unmounted s;
     deps1 := Some (renders s, opts);
     deps2 := Some (observer s, target p, opts);
     cleanup2 := match observer s, target p with
                 | Some o, Some _ => Some {| cl_observer := Some o |}
                 | _, _ => None
                 end;
     heap := observe_heap (observer s) (target p) (deref opts)
               (<[next s := {| mo_callback := closure_of p s; mo_targets := [] |}]>
                  (cleanup_heap (cleanup2 s) (heap s)));
     next := S (next s);
     log := observe_calls (observer s) (target p) (deref opts)
              ++ NewObserver (next s) (closure_of p s)
              :: cleanup_calls (cleanup2 s) ++ log s |}.

Definition unmounted_state (s : Instance) : Instance :=
  {| observer := observer s; value := value s; pending := false;
     renders := renders s; unmounted := true;
     deps1 := deps1 s; deps2 := deps2 s; cleanup2 := None;
     heap := cleanup_heap (cleanup2 s) (heap s); next := next s;
     log := cleanup_calls (cleanup2 s) ++ log s |}.

(** ** Invariants of the reachable states *)

(** How the cells, the effect memory and the heap hang together: after [k]
    renders [k] handles exist, the [observer] cell holds the last one, the
    pending cleanup is for the one before, and the closure of handle [h]
    captured handle [h - 1] (nothing for the first). *)
Record Core (s : Instance) : Prop := {
  core_next : next s = renders s;
  core_observer : observer s = prev (renders s);
  core_deps1 : match deps1 s with
               | None => renders s = 0
               | Some (f, _) => S f = renders s
               end;
  core_deps2 : match deps2 s with
               | None => renders s = 0
               | Some (ob, _, _) => exists k, renders s = S k /\ ob = prev k
               end;
  core_cleanup : match cleanup2 s with
                 | None => True
                 | Some c => unmounted s = false /\
                     exists j, renders s = S (S j) /\ cl_observer c = Some j
                 end;
  core_heap_dom : forall h, is_Some (heap s !! h) <-> h < next s;
  core_heap_closure : forall h mo, heap s !! h = Some mo ->
      hc_id (mo_callback mo) = h /\ hc_observer (mo_callback mo) = prev h;
  core_heap_observing : forall h, is_observing s h = true ->
      cleanup2 s = Some {| cl_observer := Some h |}
}.

(** The log agrees with the heap and with the cells. *)
Record LogInv (s : Instance) : Prop := {
  log_registered : forall h, h ∈ registered (log s) <-> is_observing s h = true;
  log_calm : always calm (log s);
  log_created : hd_error (created (log s)) = observer s;
  log_value : derived (log s) = value s;
  log_disconnects : forall h, disconnects h (log s) = 0 \/
      (disconnects h (log s) = 1 /\ S (S h) <= renders s /\
       cleanup2 s <> Some {| cl_observer := Some h |})
}.



(** The handle captured by the closure of the first handle created, if a
    handle was created. *)
Definition first_closure_observer (s : Instance) : option handle :=
  match heap s !! 0 with
  | Some mo => hc_observer (mo_callback mo)
  | None => None
  end.

(** Number of calls of [observe] on [h], whatever they threw. *)
Fixpoint observes (h : handle) (l : list Call) : nat :=
  match l with
  | [] => 0
  | Observe h' _ _ _ :: older =>
      (if bool_decide (h' = h) then 1 else 0) + observes h older
  | _ :: older => observes h older
  end.

(** How the calls on one handle follow each other: one handle is created per
    render; [observe] is called on a handle at most once, and not before
    the render after the one that created it; [disconnect] is called on it
    only after [observe] was; the handle of the pending cleanup is one that
    [observe] was called on. *)
Record CallInv (s : Instance) : Prop := {
  calls_created : length (created (log s)) = renders s;
  calls_observes : forall h,
    observes h (log s) <= 1 /\
    disconnects h (log s) <= observes h (log s) /\
    (0 < observes h (log s) -> S (S h) <= renders s) /\
    (cleanup2 s = Some {| cl_observer := Some h |} -> observes h (log s) = 1)
}.

End Hook.

Arguments Callback : clear implicits.
Arguments Props : clear implicits.
Arguments Closure : clear implicits.
Arguments MutationObserver : clear implicits.
Arguments Cleanup : clear implicits.
Arguments Call : clear implicits.
Arguments Instance : clear implicits.
Arguments Event : clear implicits.
Arguments M : clear implicits.

(** ** A browser and props for the examples *)

Definition or_default (o : option bool) (d : bool) : bool :=
  match o with
  | Some b => b
  | None => d
  end.

(** [observe] as the DOM standard validates its arguments: the target has to
    be a Node (here every element but 0 is one), one of [childList],
    [attributes], [characterData] has to be true, and the old-value and
    filter keys need the key they refine. *)
Definition dom_observe_check (t : Element) (o : MutationObserverOptions) : option Exn :=
  let attrs :=
    or_default (attributes o)
      (bool_decide (is_Some (attributeOldValue o)) || bool_decide (is_Some (attributeFilter o))) in
  let chars :=
    or_default (characterData o) (bool_decide (is_Some (characterDataOldValue o))) in
  if bool_decide (t = 0) then
    Some "TypeError: parameter 1 is not of type 'Node'"
  else if negb (or_default (childList o) false || attrs || chars) then
    Some "TypeError: no option to observe"
  else if or_default (attributeOldValue o) false && negb attrs then
    Some "TypeError: attributeOldValue without attributes"
  else if bool_decide (is_Some (attributeFilter o)) && negb attrs then
    Some "TypeError: attributeFilter without attributes"
  else if or_default (characterDataOldValue o) false && negb chars then
    Some "TypeError: characterDataOldValue without characterData"
  else None.

Definition example_browser : Browser := {| observe_check := dom_observe_check |}.

Definition class_changed : MutationRecord := {|
  mr_type := "attributes";
  mr_target := 1;
  mr_attributeName := Some "class";
  mr_oldValue := None
|}.

(** A transform: undefined on an empty batch, otherwise the number of
    records plus a hundred times the handle it was given. *)
Definition count_changes : Callback nat :=
  CbFunction 7 (fun ms h =>
    match ms with
    | [] => None
    | _ => Some (Plain (length ms + 100 * h))
    end).

(** A transform that returns a function: on one record the function that
    returns undefined, on more records the function that adds their number
    to the value it is given. *)
Definition reset_or_add : Callback nat :=
  CbFunction 8 (fun ms h =>
    match ms with
    | [] => None
    | [_] => Some (Updater (fun _ => None))
    | _ => Some (Updater (fun current =>
                    match current with
                    | Some n => Some (n + length ms)
                    | None => Some (length ms)
                    end))
    end).

Definition with_function_result : Props nat :=
  {| target := Some 1; callback := reset_or_add; options := None |}.

Definition with_transform : Props nat :=
  {| target := Some 1; callback := count_changes; options := None |}.

Definition without_transform : Props nat :=
  {| target := Some 1; callback := CbUndefined; options := None |}.

Definition on_invalid_target : Props nat :=
  {| target := Some 0; callback := count_changes; options := None |}.

Definition child_list_options : MutationObserverOptions := {|
  attributes := None;
  attributeOldValue := None;
  attributeFilter := None;
  characterData := None;
  characterDataOldValue := None;
  childList := Some true;
  subtree := None;
  extra := []
|}.

Definition without_target : Props nat :=
  {| target := None; callback := count_changes; options := None |}.

Definition with_child_list : Props nat :=
  {| target := Some 1; callback := count_changes;
     options := Some (5, child_list_options) |}.

Abbreviation example_final := (@final nat example_browser).
Abbreviation example_step := (@step nat example_browser).

Definition one_render : list (Event nat) := [Render with_transform].

Definition two_renders : list (Event nat) :=
  [Render with_transform; Render with_transform].

Definition three_renders : list (Event nat) :=
  [Render with_transform; Render with_transform; Render with_transform].

Definition options_changed_at_third_render : list (Event nat) :=
  [Render with_transform; Render with_transform; Render with_child_list].


Definition transform_dropped_at_second_render : list (Event nat) :=
  [Render with_transform; Render without_transform; Render without_transform].

Definition options_dropped_at_third_render : list (Event nat) :=
  [Render with_child_list; Render with_child_list].

Definition three_renders_with_function_result : list (Event nat) :=
  [Render with_function_result; Render with_function_result;
   Render with_function_result].


Definition three_renders_without_transform : list (Event nat) :=
  [Render without_transform; Render without_transform; Render without_transform].

Section Proofs.

Context {T : Type} {browser : Browser}.
Implicit Types (s : Instance T) (p : Props T) (e : Event T) (es : list (Event T)).

(** *** Running the monad *)

Lemma changed1_fresh s p :
  Core s -> changed1 (deps1 s) (renders s, resolve_options (options p)) = true.
Proof.
  intros C. pose proof (core_deps1 s C) as D. unfold changed1.
  destruct (deps1 s) as [[f o]|]; [|done]. simpl.
  rewrite bool_decide_eq_false_2 by lia. done.
Qed.

Lemma prev_S_ne k : prev k <> prev (S k).
Proof. destruct k; simpl; [done|]. intros [= E]. lia. Qed.

Lemma changed2_fresh s p :
  Core s ->
  changed2 (deps2 s) (observer s, target p, resolve_options (options p)) = true.
Proof.
  intros C. pose proof (core_deps2 s C) as D. unfold changed2.
  destruct (deps2 s) as [[[ob t] o]|]; [|done]. simpl.
  destruct D as (k & Hk & ->). rewrite (core_observer s C), Hk.
  rewrite (bool_decide_eq_false_2 _ (prev_S_ne k)). done.
Qed.

Lemma render_closed_form s p :
  Core s -> useMutationObserver p s = (inr (value s, observer s), rendered p s).
Proof.
  intros C. unfold useMutationObserver.
  unfold bind at 1, get at 1. cbn [hc_id].
  rewrite (changed1_fresh s p C), (changed2_fresh s p C).
  pose proof (core_observer s C) as Ho. pose proof (core_next s C) as Hn.
  assert (Hne : observer s <> Some (next s)).
  { rewrite Ho, Hn. destruct (renders s); simpl; [done|]. intros [= E]. lia. }
  unfold rendered, closure_of.
  destruct s as [ob v pe r u d1 d2 c hp n lg]; simpl in *.
  destruct c as [[[o|]]|], ob as [h|], (target p) as [t|]; simpl;
    unfold bind, when, begin_render, modify, run_cleanup, disconnect, emit,
      set_heap, effect1, new_MutationObserver, get, setObserver, remember1,
      effect2, try_catch, observe, remember2, ret, throw, console_error,
      observe_calls, observe_heap, cleanup_heap, cleanup_calls; simpl;
    try destruct (observe_check t _); simpl;
    rewrite ?(bool_decide_eq_false_2 _ Hne); reflexivity.
Qed.

(** *** The heap of observers *)

Lemma observing_unregister (m : gmap handle (MutationObserver T)) o h :
  observing (alter unregister_all o m) h =
  if decide (o = h) then false else observing m h.
Proof.
  unfold observing. rewrite lookup_alter.
  destruct (decide (o = h)) as [->|]; [|done].
  destruct (m !! h); done.
Qed.

Lemma observing_insert_idle (m : gmap handle (MutationObserver T)) n c h :
  observing (<[n := {| mo_callback := c; mo_targets := [] |}]> m) h =
  if decide (n = h) then false else observing m h.
Proof.
  unfold observing. rewrite lookup_insert.
  destruct (decide (n = h)); done.
Qed.

Lemma observing_register (m : gmap handle (MutationObserver T)) t o i h :
  observing (alter (register t o) i m) h =
  if decide (i = h) then bool_decide (is_Some (m !! i)) else observing m h.
Proof.
  unfold observing. rewrite lookup_alter.
  destruct (decide (i = h)) as [->|]; [|done].
  destruct (m !! h) as [mo|]; simpl.
  - rewrite bool_decide_eq_false_2; [done|].
    intros E. by apply app_nil in E as [_ [=]].
  - done.
Qed.

Lemma alter_is_Some (m : gmap handle (MutationObserver T)) f i h :
  is_Some (alter f i m !! h) <-> is_Some (m !! h).
Proof.
  rewrite lookup_alter. destruct (decide (i = h)) as [->|]; [|done].
  by rewrite fmap_is_Some.
Qed.

Lemma alter_closure (m : gmap handle (MutationObserver T)) f i h mo :
  (forall x, mo_callback (f x) = mo_callback x) ->
  alter f i m !! h = Some mo ->
  exists mo', m !! h = Some mo' /\ mo_callback mo' = mo_callback mo.
Proof.
  intros Hf. rewrite lookup_alter. destruct (decide (i = h)) as [->|]; [|eauto].
  destruct (m !! h) as [x|]; simpl; [|done].
  intros [= <-]. eauto.
Qed.

Lemma cleanup_heap_is_Some c (m : gmap handle (MutationObserver T)) h :
  is_Some (cleanup_heap c m !! h) <-> is_Some (m !! h).
Proof.
  unfold cleanup_heap. destruct c as [[[o|]]|]; [|done..]. apply alter_is_Some.
Qed.

Lemma observe_heap_is_Some ob tgt o (m : gmap handle (MutationObserver T)) h :
  is_Some (observe_heap ob tgt o m !! h) <-> is_Some (m !! h).
Proof.
  unfold observe_heap. destruct ob, tgt; [|done..].
  destruct (observe_check _ _); [done|]. apply alter_is_Some.
Qed.

Lemma cleanup_heap_closure c (m : gmap handle (MutationObserver T)) h mo :
  cleanup_heap c m !! h = Some mo ->
  exists mo', m !! h = Some mo' /\ mo_callback mo' = mo_callback mo.
Proof.
  unfold cleanup_heap. destruct c as [[[o|]]|]; [|eauto..].
  by apply alter_closure.
Qed.

Lemma observe_heap_closure ob tgt o (m : gmap handle (MutationObserver T)) h mo :
  observe_heap ob tgt o m !! h = Some mo ->
  exists mo', m !! h = Some mo' /\ mo_callback mo' = mo_callback mo.
Proof.
  unfold observe_heap. destruct ob, tgt; [|eauto..].
  destruct (observe_check _ _); [eauto|]. by apply alter_closure.
Qed.

(** After the cleanup of the second effect no handle is registered. *)
Lemma cleanup_heap_idle s h :
  Core s -> observing (cleanup_heap (cleanup2 s) (heap s)) h = false.
Proof.
  intros C. pose proof (core_heap_observing s C h) as Ho.
  unfold is_observing in Ho.
  destruct (observing (heap s) h) eqn:E.
  - rewrite (Ho eq_refl). simpl. rewrite observing_unregister.
    by rewrite decide_True.
  - unfold cleanup_heap. destruct (cleanup2 s) as [[[o|]]|]; [|done..].
    rewrite observing_unregister. by destruct (decide (o = h)).
Qed.

Lemma observing_rendered s p h :
  Core s ->
  is_observing (rendered p s) h =
  match observer s, target p with
  | Some o, Some t =>
      match observe_check t (deref (resolve_options (options p))) with
      | Some _ => false
      | None => bool_decide (o = h)
      end
  | _, _ => false
  end.
Proof.
  intros C. unfold is_observing, rendered; cbn [heap].
  assert (Hidle : forall c,
    observing (<[next s := {| mo_callback := c; mo_targets := [] |}]>
                 (cleanup_heap (cleanup2 s) (heap s))) h = false).
  { intros c. rewrite observing_insert_idle, cleanup_heap_idle by done.
    by destruct (decide _). }
  unfold observe_heap.
  pose proof (core_observer s C) as Ho. pose proof (core_next s C) as Hn.
  destruct (observer s) as [o|] eqn:Eo, (target p) as [t|]; try apply Hidle.
  destruct (observe_check t _); [apply Hidle|].
  rewrite observing_register. destruct (decide (o = h)) as [->|Hne].
  - rewrite (bool_decide_eq_true_2 (h = h)) by done. apply bool_decide_eq_true_2.
    rewrite lookup_insert_is_Some'. right. apply cleanup_heap_is_Some.
    apply (core_heap_dom s C). destruct (renders s); simpl in Ho; [done|].
    injection Ho as ->. lia.
  - rewrite Hidle. symmetry. by apply bool_decide_eq_false_2.
Qed.

(** *** The core invariant *)

Lemma Core_initial : Core (@initial T).
Proof.
  constructor; simpl; try done.
  intros h. rewrite lookup_empty. split; [by intros [? [=]]|lia].
Qed.

Lemma Core_rendered s p : Core s -> unmounted s = false -> Core (rendered p s).
Proof.
  intros C Hu.
  pose proof (core_observer s C) as Ho. pose proof (core_next s C) as Hn.
  constructor.
  - simpl. by rewrite Hn.
  - simpl. by rewrite Hn.
  - done.
  - simpl. eauto.
  - simpl. destruct (observer s) as [o|], (target p); try done.
    split; [done|]. destruct (renders s); simpl in Ho; [done|].
    injection Ho as ->. eauto.
  - intros h. cbn [heap next rendered]. rewrite observe_heap_is_Some.
    rewrite lookup_insert_is_Some', cleanup_heap_is_Some.
    rewrite (core_heap_dom s C). lia.
  - intros h mo. cbn [heap rendered]. intros Hl.
    apply observe_heap_closure in Hl as (mo1 & Hl & <-).
    rewrite lookup_insert in Hl. destruct (decide (next s = h)) as [<-|Hne].
    + injection Hl as <-. simpl. by rewrite Hn, Ho.
    + apply cleanup_heap_closure in Hl as (mo2 & Hl & <-).
      by apply (core_heap_closure s C).
  - intros h. rewrite observing_rendered by done. cbn [cleanup2 rendered].
    destruct (observer s), (target p); try done.
    destruct (observe_check _ _); [done|].
    by intros ->%bool_decide_eq_true.
Qed.

Lemma Core_unmounted s : Core s -> Core (unmounted_state s).
Proof.
  intros C. constructor; try apply C; try done.
  - intros h. cbn [heap next unmounted_state].
    rewrite cleanup_heap_is_Some. apply C.
  - intros h mo. cbn [heap unmounted_state]. intros Hl.
    apply cleanup_heap_closure in Hl as (mo2 & Hl & <-).
    by apply (core_heap_closure s C).
  - intros h. unfold is_observing. cbn [heap unmounted_state].
    by rewrite cleanup_heap_idle.
Qed.

(** *** Notifications and discard in closed form *)

Lemma handleChanges_closed_form (hc : Closure T) batch s :
  handleChanges hc batch s =
  (inr tt,
   match hc_observer hc with
   | None => s
   | Some obs =>
       match hc_callback hc with
       | CbFunction id f =>
           match f batch obs with
           | Some v => stored v (logged (Invoke id batch obs (Some v)) s)
           | None => logged (Invoke id batch obs None) s
           end
       | _ => logged (ConsoleWarn not_a_function) s
       end
   end).
Proof.
  unfold handleChanges. destruct (hc_observer hc) as [obs|]; [|done].
  destruct (hc_callback hc) as [| |id f]; try done.
  unfold bind, emit, modify, setValue, ret. by destruct (f batch obs).
Qed.

Lemma unmount_closed_form s : unmount s = (inr tt, unmounted_state s).
Proof.
  unfold unmount, unmounted_state, bind, get, run_cleanup, cleanup_heap,
    cleanup_calls.
  destruct (cleanup2 s) as [[[o|]]|]; done.
Qed.

Lemma Core_logged c s : Core s -> Core (logged c s).
Proof. intros C. constructor; apply C. Qed.

Lemma Core_stored v s : Core s -> Core (stored v s).
Proof. intros C. constructor; apply C. Qed.

Lemma Core_handleChanges (hc : Closure T) batch s :
  Core s -> Core (handleChanges hc batch s).2.
Proof.
  intros C. rewrite handleChanges_closed_form. cbn [snd].
  destruct (hc_observer hc); [|done].
  destruct (hc_callback hc) as [| |id f]; try by apply Core_logged.
  destruct (f batch h); [apply Core_stored|]; by apply Core_logged.
Qed.

Lemma notify_closed_form h batch s :
  notify h batch s =
  match heap s !! h with
  | Some mo =>
      if is_observing s h then handleChanges (mo_callback mo) batch s
      else (inr tt, s)
  | None => (inr tt, s)
  end.
Proof.
  unfold notify, bind, get, is_observing, observing.
  destruct (heap s !! h) as [mo|]; [|done].
  by destruct (bool_decide (mo_targets mo = [])).
Qed.

Lemma step_returns e s : Core s -> (step e s).1 = inr tt.
Proof.
  intros C. destruct e as [p|h batch|]; unfold step, bind, get.
  - destruct (unmounted s); [done|]. by rewrite render_closed_form.
  - rewrite notify_closed_form. destruct (heap s !! h); [|done].
    destruct (is_observing s h); [|done]. by rewrite handleChanges_closed_form.
  - destruct (unmounted s); [done|]. by rewrite unmount_closed_form.
Qed.

Lemma step_render p s :
  Core s -> unmounted s = false -> (step (Render p) s).2 = rendered p s.
Proof.
  intros C Hu. unfold step, bind, get. rewrite Hu.
  by rewrite render_closed_form.
Qed.

Lemma step_unmount s :
  unmounted s = false -> (step Unmount s).2 = unmounted_state s.
Proof.
  intros Hu. unfold step, bind, get. rewrite Hu.
  by rewrite unmount_closed_form.
Qed.

Lemma step_notify h batch s :
  (step (Notify h batch) s).2 =
  match heap s !! h with
  | Some mo =>
      if is_observing s h then (handleChanges (mo_callback mo) batch s).2 else s
  | None => s
  end.
Proof.
  unfold step, bind, get. rewrite notify_closed_form.
  destruct (heap s !! h); [|done]. by destruct (is_observing s h).
Qed.

Lemma step_when_unmounted e s :
  unmounted s = true -> (forall h, is_observing s h = false) ->
  step e s = (inr tt, s).
Proof.
  intros Hu Hidle. destruct e as [p|h batch|]; unfold step, bind, get.
  - by rewrite Hu.
  - rewrite notify_closed_form, Hidle. by destruct (heap s !! h).
  - by rewrite Hu.
Qed.

Lemma Core_step e s : Core s -> Core (step e s).2.
Proof.
  intros C. destruct e as [p|h batch|].
  - destruct (unmounted s) eqn:Hu.
    + unfold step, bind, get. by rewrite Hu.
    + rewrite step_render by done. by apply Core_rendered.
  - rewrite step_notify. destruct (heap s !! h); [|done].
    destruct (is_observing s h); [|done]. by apply Core_handleChanges.
  - destruct (unmounted s) eqn:Hu.
    + unfold step, bind, get. by rewrite Hu.
    + rewrite step_unmount by done. by apply Core_unmounted.
Qed.

Lemma steps_cons e es s :
  Core s -> steps (e :: es) s = steps es (step e s).2.
Proof.
  intros C. cbn [steps]. unfold bind at 1.
  pose proof (step_returns e s C) as Hr.
  destruct (step e s) as [[x|[]] s']; simpl in *; done.
Qed.

(** Induction over a run: a property that holds initially and that every
    step preserves, under the core invariant, holds at the end; and the run
    returns, it does not throw. *)
Lemma steps_invariant (Q : Event T -> Prop) (P : Instance T -> Prop) :
  (forall e s, Q e -> Core s -> P s -> P (step e s).2) ->
  forall es s, Forall Q es -> Core s -> P s ->
    (steps es s).1 = inr tt /\ Core (steps es s).2 /\ P (steps es s).2.
Proof.
  intros Hstep es. induction es as [|e es IH]; intros s HQ C HP.
  - done.
  - inversion HQ as [|?? Qe Qes]; subst.
    rewrite steps_cons by done.
    apply IH; [done|by apply Core_step|by apply Hstep].
Qed.


Lemma Core_final es : Core (final es).
Proof.
  apply (steps_invariant (fun _ => True) (fun _ => True)); try done.
  - by apply Forall_forall.
  - apply Core_initial.
Qed.

Lemma final_invariant (Q : Event T -> Prop) (P : Instance T -> Prop) :
  P initial ->
  (forall e s, Q e -> Core s -> P s -> P (step e s).2) ->
  forall es, Forall Q es -> P (final es).
Proof.
  intros H0 Hstep es HQ.
  by apply (steps_invariant Q P Hstep es initial HQ Core_initial H0).
Qed.

Lemma final_snoc es e : final (es ++ [e]) = (step e (final es)).2.
Proof.
  unfold final, run. generalize (@initial T) (@Core_initial).
  induction es as [|e' es IH]; intros s C.
  - simpl. unfold bind. pose proof (step_returns e s C).
    by destruct (step e s) as [[x|[]] s'].
  - rewrite <- app_comm_cons, !steps_cons by done.
    apply IH. by apply Core_step.
Qed.

(** *** The log invariant *)

Lemma always_impl (P Q : list (Call T) -> Prop) l :
  (forall l, P l -> Q l) -> always P l -> always Q l.
Proof.
  intros HPQ. induction l as [|c l IH]; simpl; intros [H1 H2]; split; auto.
Qed.

Lemma always_here (P : list (Call T) -> Prop) l : always P l -> P l.
Proof. destruct l; simpl; tauto. Qed.

Lemma filter_all_out (o : handle) (l : list handle) :
  (forall x, x ∈ l -> x = o) -> filter (fun x => x ≠ o) l = [].
Proof.
  induction l as [|a l IH]; intros Hall; [done|].
  rewrite filter_cons_False.
  - apply IH. intros x Hx. apply Hall. by right.
  - intros Hne. apply Hne, Hall. by left.
Qed.

Lemma registered_only_cleanup s h :
  Core s -> LogInv s -> h ∈ registered (log s) ->
  cleanup2 s = Some {| cl_observer := Some h |}.
Proof.
  intros C L Hin. apply (core_heap_observing s C).
  by apply (log_registered s L).
Qed.

Lemma registered_after_cleanup s :
  Core s -> LogInv s -> registered (cleanup_calls (cleanup2 s) ++ log s) = [].
Proof.
  intros C L. pose proof (registered_only_cleanup s) as Hc.
  destruct (cleanup2 s) as [[[o|]]|] eqn:E; simpl.
  - apply filter_all_out. intros x Hx. specialize (Hc x C L Hx). congruence.
  - destruct (registered (log s)) as [|x r]; [done|].
    specialize (Hc x C L). discriminate Hc. by left.
  - destruct (registered (log s)) as [|x r]; [done|].
    specialize (Hc x C L). discriminate Hc. by left.
Qed.

Lemma calm_after_cleanup s :
  Core s -> LogInv s -> always calm (cleanup_calls (cleanup2 s) ++ log s).
Proof.
  intros C L. pose proof (registered_after_cleanup s C L) as Hr.
  pose proof (log_calm s L) as Hcalm.
  destruct (cleanup2 s) as [[[o|]]|]; simpl in *; try done.
  repeat split; try done. unfold at_most_one_registered. simpl.
  rewrite Hr. simpl. lia.
Qed.

Lemma LogInv_initial : LogInv (@initial T).
Proof.
  constructor; simpl; try done.
  - intros h. unfold is_observing, observing. simpl. rewrite lookup_empty.
    split; [by intros ?%elem_of_nil|done].
  - repeat split. unfold at_most_one_registered. simpl. lia.
  - by left.
Qed.

Lemma observer_is_last s o :
  Core s -> observer s = Some o -> renders s = S o.
Proof.
  intros C Ho. rewrite (core_observer s C) in Ho.
  destruct (renders s); simpl in Ho; congruence.
Qed.

Lemma LogInv_rendered s p :
  Core s -> LogInv s -> unmounted s = false -> LogInv (rendered p s).
Proof.
  intros C L Hu.
  pose proof (registered_after_cleanup s C L) as Hr.
  pose proof (calm_after_cleanup s C L) as Hcalm.
  pose proof (observing_rendered s p) as Hobs.
  assert (Hnew : always calm (NewObserver (next s) (closure_of p s) :: cleanup_calls (cleanup2 s) ++ log s)).
  { split; [|done]. repeat split; try done.
    unfold at_most_one_registered. simpl. rewrite Hr. simpl. lia. }
  constructor.
  - intros h. rewrite Hobs by done. cbn [log rendered]. unfold observe_calls.
    destruct (observer s) as [o|], (target p) as [t|]; simpl;
      rewrite ?Hr; try (split; [by intros ?%elem_of_nil|done]).
    destruct (observe_check t _); simpl; rewrite Hr.
    + split; [by intros ?%elem_of_nil|done].
    + simpl. rewrite list_elem_of_singleton, bool_decide_eq_true. split; congruence.
  - cbn [log rendered]. unfold observe_calls.
    destruct (observer s) as [o|], (target p) as [t|]; simpl; try apply Hnew.
    destruct (observe_check t _); simpl.
    + split; [|split; [|apply Hnew]].
      * repeat split. unfold at_most_one_registered. simpl. rewrite Hr. simpl. lia.
      * repeat split. unfold at_most_one_registered. simpl. rewrite Hr. simpl. lia.
    + split; [|apply Hnew]. repeat split.
      * unfold at_most_one_registered. simpl. rewrite Hr. simpl. lia.
      * simpl. by rewrite Hr.
  - cbn [log rendered observer]. unfold observe_calls.
    destruct (observer s) as [o|], (target p) as [t|]; simpl; try done.
    by destruct (observe_check t _).
  - cbn [log rendered value]. rewrite <- (log_value s L).
    unfold observe_calls.
    assert (Hc : derived (NewObserver (next s) (closure_of p s) :: cleanup_calls (cleanup2 s) ++ log s)
                 = derived (log s)).
    { simpl. by destruct (cleanup2 s) as [[[o|]]|]. }
    destruct (observer s) as [o|], (target p) as [t|]; simpl; try apply Hc.
    destruct (observe_check t _); simpl; apply Hc.
  - intros h. cbn [log rendered renders cleanup2].
    assert (Hd : disconnects h (observe_calls (observer s) (target p)
                   (deref (resolve_options (options p)))
                   ++ NewObserver (next s) (closure_of p s) :: cleanup_calls (cleanup2 s) ++ log s)
                 = disconnects h (cleanup_calls (cleanup2 s) ++ log s)).
    { unfold observe_calls.
      destruct (observer s) as [o|], (target p) as [t|]; simpl; try done.
      by destruct (observe_check t _). }
    rewrite Hd. clear Hd.
    assert (Hfresh : S (S h) <= renders s ->
      match observer s, target p with
      | Some o, Some _ => Some {| cl_observer := Some o |}
      | _, _ => None
      end <> Some {| cl_observer := Some h |}).
    { intros Hle. destruct (observer s) as [o|] eqn:Eo, (target p); try done.
      apply (observer_is_last s o C) in Eo. intros [= ->]. lia. }
    pose proof (core_cleanup s C) as Hcl.
    destruct (log_disconnects s L h) as [H0|(H1 & Hle & Hne)].
    + destruct (cleanup2 s) as [[[o|]]|] eqn:E; simpl; auto.
      destruct Hcl as (_ & j & Hj & [= ->]).
      case_bool_decide; simpl; auto. subst. right.
      rewrite H0. split; [done|]. split; [lia|]. apply Hfresh. lia.
    + right. destruct (cleanup2 s) as [[[o|]]|] eqn:E; simpl;
        try (split; [done|]; split; [lia|]; apply Hfresh; lia).
      rewrite bool_decide_eq_false_2 by congruence. simpl.
      split; [done|]. split; [lia|]. apply Hfresh. lia.
Qed.

Lemma LogInv_unmounted s : Core s -> LogInv s -> LogInv (unmounted_state s).
Proof.
  intros C L.
  pose proof (registered_after_cleanup s C L) as Hr.
  constructor.
  - intros h. cbn [log unmounted_state]. rewrite Hr. unfold is_observing.
    cbn [heap unmounted_state]. rewrite cleanup_heap_idle by done.
    split; [by intros ?%elem_of_nil|done].
  - by apply calm_after_cleanup.
  - cbn [log unmounted_state observer]. rewrite <- (log_created s L).
    by destruct (cleanup2 s) as [[[o|]]|].
  - cbn [log unmounted_state value]. rewrite <- (log_value s L).
    by destruct (cleanup2 s) as [[[o|]]|].
  - intros h. cbn [log unmounted_state renders cleanup2].
    pose proof (core_cleanup s C) as Hcl.
    destruct (log_disconnects s L h) as [H0|(H1 & Hle & Hne)].
    + destruct (cleanup2 s) as [[[o|]]|] eqn:E; simpl; auto.
      destruct Hcl as (_ & j & Hj & [= ->]).
      case_bool_decide; simpl; auto. subst. right.
      rewrite H0. split; [done|]. split; [lia|done].
    + right. destruct (cleanup2 s) as [[[o|]]|] eqn:E; simpl; try done.
      rewrite bool_decide_eq_false_2 by congruence. done.
Qed.

Lemma LogInv_logged_inert c s :
  match c with
  | ConsoleWarn _ | Invoke _ _ _ None => True
  | _ => False
  end ->
  LogInv s -> LogInv (logged c s).
Proof.
  intros Hc L.
  pose proof (always_here _ _ (log_calm s L)) as (H1 & H2 & H3).
  destruct c as [| | | | |id b o [v|]]; try done.
  - constructor; cbn [log logged value observer renders cleanup2]; try apply L.
    split; [done|apply L].
  - constructor; cbn [log logged value observer renders cleanup2]; try apply L.
    split; [done|apply L].
Qed.

Lemma LogInv_handleChanges (hc : Closure T) batch s :
  LogInv s -> LogInv (handleChanges hc batch s).2.
Proof.
  intros L. rewrite handleChanges_closed_form. cbn [snd].
  destruct (hc_observer hc) as [obs|]; [|done].
  destruct (hc_callback hc) as [| |id f]; try by apply LogInv_logged_inert.
  destruct (f batch obs) as [v|] eqn:Ef; [|by apply LogInv_logged_inert].
  pose proof (always_here _ _ (log_calm s L)) as (H1 & H2 & H3).
  constructor; cbn [log logged stored value observer renders cleanup2];
    try apply L; try done.
  - split; [done|apply L].
  - cbn [derived]. by rewrite (log_value s L).
Qed.

Lemma LogInv_step e s : Core s -> LogInv s -> LogInv (step e s).2.
Proof.
  intros C L. destruct e as [p|h batch|].
  - destruct (unmounted s) eqn:Hu.
    + unfold step, bind, get. by rewrite Hu.
    + rewrite step_render by done. by apply LogInv_rendered.
  - rewrite step_notify. destruct (heap s !! h); [|done].
    destruct (is_observing s h); [|done]. by apply LogInv_handleChanges.
  - destruct (unmounted s) eqn:Hu.
    + unfold step, bind, get. by rewrite Hu.
    + rewrite step_unmount by done. by apply LogInv_unmounted.
Qed.

Lemma LogInv_final es : LogInv (final es).
Proof.
  apply (final_invariant (fun _ => True)); [apply LogInv_initial| |].
  - intros e s _. apply LogInv_step.
  - by apply Forall_forall.
Qed.

(** *** Runs without options, runs without a transform *)



Lemma is_observing_registered s h :
  LogInv s -> is_observing s h = bool_decide (h ∈ registered (log s)).
Proof.
  intros L. pose proof (log_registered s L h) as Hr.
  destruct (is_observing s h).
  - symmetry. apply bool_decide_eq_true_2. by apply Hr.
  - symmetry. apply bool_decide_eq_false_2. intros Hin. by apply Hr in Hin.
Qed.

(** What a render leaves registered: the handle of the cell when [observe]
    returned, nothing otherwise. *)
Lemma registered_after_cleanup_render es p :
  registered
    (observe_calls (observer (final es)) (target p)
       (deref (resolve_options (options p)))
     ++ NewObserver (next (final es)) (closure_of p (final es))
     :: cleanup_calls (cleanup2 (final es)) ++ log (final es)) =
  match observer (final es), target p with
  | Some o, Some t =>
      match observe_check t (deref (resolve_options (options p))) with
      | Some _ => []
      | None => [o]
      end
  | _, _ => []
  end.
Proof.
  pose proof (registered_after_cleanup _ (Core_final es) (LogInv_final es)) as Hr.
  unfold observe_calls.
  destruct (observer (final es)) as [o|], (target p) as [t|]; simpl;
    rewrite ?Hr; try done.
  destruct (observe_check t _); simpl; by rewrite Hr.
Qed.

(** *** Runs in two parts *)



(** *** A handle keeps its callback *)






(** A render always makes a handle: the first effect runs at every render,
    whatever the props, and schedules another render. *)
Lemma render_always_creates es p :
  unmounted (final es) = false ->
  created (log (step (Render p) (final es)).2)
    = next (final es) :: created (log (final es)) /\
  pending (step (Render p) (final es)).2 = true.
Proof.
  intros Hu. rewrite step_render by (done || apply Core_final).
  split; [|done]. cbn [log rendered]. unfold observe_calls.
  assert (Hc : created (cleanup_calls (cleanup2 (final es)) ++ log (final es))
               = created (log (final es))).
  { by destruct (cleanup2 (final es)) as [[[o|]]|]. }
  destruct (observer (final es)), (target p); simpl; rewrite ?Hc; try done.
  destruct (observe_check _ _); simpl; by rewrite Hc.
Qed.

(** The callback of a handle captured the handle created before it. *)
Lemma closure_captures_previous es h mo :
  heap (final es) !! h = Some mo -> hc_observer (mo_callback mo) = prev h.
Proof. intros Hl. by apply (core_heap_closure _ (Core_final es)). Qed.

End Proofs.

(** ** The claims *)

Section Claims.

Context {T : Type} {browser : Browser}.
Implicit Types (s : Instance T) (p : Props T) (e : Event T) (es : list (Event T)).

(** C1, amended. In every run of an instance (renders, notifications,
    discard, in any order) at most one handle is registered at any time,
    a handle being registered from the moment [observe] returned until
    [disconnect] is called.  Whenever a handle is created no handle is
    registered: the one that was has been disconnected; and whenever a
    handle is registered no other handle is.  The registered handles read
    off the log are those the heap holds as observing.  Handles that were
    created and not yet registered are not counted. *)
Theorem C1_at_most_one_registered_handle es :
  always at_most_one_registered (log (final es)) /\
  always created_when_none_registered (log (final es)) /\
  always registered_alone (log (final es)) /\
  forall h, is_observing (final es) h = bool_decide (h ∈ registered (log (final es))).
Proof.
  pose proof (LogInv_final es) as L. pose proof (log_calm _ L) as Hc.
  split; [|split; [|split]].
  - eapply always_impl; [|exact Hc]. by intros l (? & ? & ?).
  - eapply always_impl; [|exact Hc]. by intros l (? & ? & ?).
  - eapply always_impl; [|exact Hc]. by intros l (? & ? & ?).
  - intros h. by apply is_observing_registered.
Qed.

(** C3. For every batch the browser hands to a handle: if the stored value
    is another one afterwards, the transform of that handle's callback was
    called on the batch and returned a defined result, and the stored value
    is what the state setter makes of that result: the result itself when
    it is not a function, what the result returns on the value from before
    when it is one.  If the transform returns undefined on the batch, the
    stored value is the one from before.  Renders and the discard leave the
    stored value alone. *)
Theorem C3_value_replaced_only_by_defined_result s h batch es p :
  (value (step (Notify h batch) s).2 <> value s ->
   exists mo id f obs r,
     heap s !! h = Some mo /\
     hc_callback (mo_callback mo) = CbFunction id f /\
     hc_observer (mo_callback mo) = Some obs /\
     f batch obs = Some r /\
     value (step (Notify h batch) s).2 = next_value r (value s)) /\
  (forall mo id f obs,
     heap s !! h = Some mo ->
     hc_callback (mo_callback mo) = CbFunction id f ->
     hc_observer (mo_callback mo) = Some obs ->
     f batch obs = None ->
     value (step (Notify h batch) s).2 = value s) /\
  value (step (Render p) (final es)).2 = value (final es) /\
  value (step Unmount (final es)).2 = value (final es).
Proof.
  assert (Hother :
    value (step (Render p) (final es)).2 = value (final es) /\
    value (step Unmount (final es)).2 = value (final es)).
  { destruct (unmounted (final es)) eqn:Hu.
    - unfold step, bind, get. by rewrite Hu.
    - rewrite step_render, step_unmount by (done || apply Core_final). done. }
  rewrite step_notify. split; [|split; [|exact Hother]].
  - destruct (heap _ !! _) as [mo|] eqn:E; [|done].
    destruct (is_observing s h); [|done].
    rewrite handleChanges_closed_form. cbn [snd].
    destruct (hc_observer _) as [obs|] eqn:Eo; [|done].
    destruct (hc_callback _) as [| |id f] eqn:Ec; try done.
    destruct (f batch obs) as [r|] eqn:Ef; [|done].
    intros _. by exists mo, id, f, obs, r.
  - intros mo id f obs E Ec Eo Ef. rewrite E.
    destruct (is_observing s h); [|done].
    rewrite handleChanges_closed_form. cbn [snd].
    by rewrite Eo, Ec, Ef.
Qed.


(** C5. When [observe] throws at a render, the render returns all the same,
    the error is on the console right after the call, nothing is
    registered, and the failing effect touched neither cell: its whole
    doing is the two log entries, and both cells are after the render what
    they are in a browser where the call returns.  The instance goes on: the
    next render
    with a target calls [observe] again, on the handle then in the cell,
    and that handle is registered exactly when the call does not throw. *)
Theorem C5_registration_failure es p o t (err : Exn) p' t' :
  unmounted (final es) = false ->
  observer (final es) = Some o ->
  target p = Some t ->
  observe_check t (deref (resolve_options (options p))) = Some err ->
  target p' = Some t' ->
  let s := final es in
  let opts := deref (resolve_options (options p)) in
  let opts' := deref (resolve_options (options p')) in
  let r := step (Render p) s in
  let r' := step (Render p') r.2 in
  r.1 = inr tt /\
  (exists l, log r.2 = ConsoleError err :: Observe o t opts (Some err) :: l) /\
  value r.2 = value s /\
  is_observing r.2 o = false /\
  (forall s0, effect2 (Some o) (Some t) (resolve_options (options p)) s0 =
     (inr (Some {| cl_observer := Some o |}),
      logged (ConsoleError err) (logged (Observe o t opts (Some err)) s0))) /\
  (forall other : Browser,
     observer (step (browser := other) (Render p) s).2 = observer r.2 /\
     value (step (browser := other) (Render p) s).2 = value r.2) /\
  r'.1 = inr tt /\
  exists o', observer r.2 = Some o' /\
    (exists l1 l2,
       log r'.2 = l1 ++ Observe o' t' opts' (observe_check t' opts') :: l2) /\
    is_observing r'.2 o' = bool_decide (observe_check t' opts' = None).
Proof.
  intros Hu Ho Ht He Ht' s opts opts' r r'. subst opts opts'.
  pose proof (Core_final es) as C. fold s in C, Hu, Ho.
  assert (Hr : r.2 = rendered p s) by by apply step_render.
  assert (C' : Core r.2) by by apply Core_step.
  assert (Hu' : unmounted r.2 = false) by by rewrite Hr.
  assert (Hr' : r'.2 = rendered p' r.2) by by apply step_render.
  split; [by apply step_returns|].
  split.
  { rewrite Hr. cbn [log rendered]. unfold observe_calls.
    rewrite Ho, Ht. rewrite He. simpl. eauto. }
  split; [by rewrite Hr|].
  split.
  { rewrite Hr, observing_rendered by done. by rewrite Ho, Ht, He. }
  split.
  { intros s0. unfold effect2, bind, try_catch, observe, emit, modify, throw,
      console_error, ret. by rewrite He. }
  split.
  { intros other. rewrite (step_render (browser := other)) by done.
    by rewrite Hr. }
  split; [by apply step_returns|].
  exists (next s). split; [by rewrite Hr|].
  assert (Ho' : observer r.2 = Some (next s)) by by rewrite Hr.
  split.
  - rewrite Hr'. cbn [log rendered]. unfold observe_calls.
    rewrite Ho', Ht'.
    destruct (observe_check t' _) as [err'|].
    + by exists [ConsoleError err'], (NewObserver (next r.2) (closure_of p' r.2)
                                   :: cleanup_calls (cleanup2 r.2) ++ log r.2).
    + by exists [], (NewObserver (next r.2) (closure_of p' r.2)
                   :: cleanup_calls (cleanup2 r.2) ++ log r.2).
  - rewrite Hr', observing_rendered by done. rewrite Ho', Ht'.
    destruct (observe_check t' _); [done|].
    by rewrite !bool_decide_eq_true_2.
Qed.

(** C6, amended. At a render whose options object is another one than at
    the render before, with handle [h] registered: [disconnect] is called on
    [h], once, and on no other handle, it was not called on [h] before and
    is never called on it again; one handle is created; and at no moment up
    to the end of the commit are two handles registered.  Handles that were
    created and not yet registered are not counted. *)
Theorem C6_config_change es p0 p h h' es' :
  let s := final (es ++ [Render p0]) in
  let s' := (step (Render p) s).2 in
  unmounted s = false ->
  same_options (resolve_options (options p0)) (resolve_options (options p)) = false ->
  registered (log s) = [h] ->
  disconnects h (log s) = 0 /\
  disconnects h' (log s') =
    disconnects h' (log s) + (if bool_decide (h = h') then 1 else 0) /\
  created (log s') = next s :: created (log s) /\
  always at_most_one_registered (log s') /\
  disconnects h (log (final ((es ++ [Render p0]) ++ [Render p] ++ es'))) <= 1.
Proof.
  intros s s' Hu _ Hreg.
  pose proof (Core_final (es ++ [Render p0])) as C.
  pose proof (LogInv_final (es ++ [Render p0])) as L. fold s in C, L.
  assert (Hc : cleanup2 s = Some {| cl_observer := Some h |}).
  { apply registered_only_cleanup; [done..|]. rewrite Hreg. by left. }
  assert (H0 : disconnects h (log s) = 0).
  { by destruct (log_disconnects s L h) as [?|(_ & _ & ?)]. }
  split; [done|].
  assert (Hs' : s' = rendered p s) by by apply step_render.
  split.
  { rewrite Hs'. cbn [log rendered]. unfold observe_calls. rewrite Hc.
    destruct (observer s), (target p); simpl; try lia.
    destruct (observe_check _ _); simpl; lia. }
  split; [by apply render_always_creates|].
  split.
  { assert (L' : LogInv s') by by apply LogInv_step.
    eapply always_impl; [|exact (log_calm _ L')]. by intros l (? & ? & ?). }
  destruct (log_disconnects _ (LogInv_final ((es ++ [Render p0]) ++ [Render p] ++ es')) h)
    as [->|(-> & _)]; lia.
Qed.

(** C7. Discarding an instance in which handle [h] is registered calls
    [disconnect] on [h], which had not been disconnected before, leaves no
    handle registered, and ends the instance: whatever happens afterwards
    changes nothing, so the transform is not called again and [h] is not
    disconnected a second time. *)
Theorem C7_discard es h es' :
  registered (log (final es)) = [h] ->
  let s' := (step Unmount (final es)).2 in
  disconnects h (log (final es)) = 0 /\
  log s' = Disconnect h :: log (final es) /\
  disconnects h (log s') = 1 /\
  registered (log s') = [] /\
  steps es' s' = (inr tt, s').
Proof.
  intros Hreg s'.
  pose proof (Core_final es) as C. pose proof (LogInv_final es) as L.
  assert (Hc : cleanup2 (final es) = Some {| cl_observer := Some h |}).
  { apply registered_only_cleanup; [done..|]. rewrite Hreg. by left. }
  assert (Hu : unmounted (final es) = false).
  { pose proof (core_cleanup _ C) as Hcl. rewrite Hc in Hcl. apply Hcl. }
  assert (H0 : disconnects h (log (final es)) = 0).
  { by destruct (log_disconnects _ L h) as [?|(_ & _ & ?)]. }
  assert (Hs' : s' = unmounted_state (final es)) by by apply step_unmount.
  assert (Hlog : log s' = Disconnect h :: log (final es)).
  { rewrite Hs'. cbn [log unmounted_state]. by rewrite Hc. }
  split; [done|]. split; [done|].
  split.
  { rewrite Hlog. simpl. rewrite bool_decide_eq_true_2 by done. lia. }
  split.
  { rewrite Hlog. cbn [registered apply_registered]. rewrite Hreg.
    apply filter_all_out. by intros x ->%list_elem_of_singleton. }
  assert (Hidle : forall h0, is_observing s' h0 = false).
  { intros h0. rewrite Hs'. unfold is_observing. cbn [heap unmounted_state].
    by apply cleanup_heap_idle. }
  assert (Hu' : unmounted s' = true) by by rewrite Hs'.
  induction es' as [|e es' IH]; [done|].
  cbn [steps]. unfold bind. by rewrite step_when_unmounted.
Qed.

(** C8, amended. Every render returns the pair of the two cells.  The
    value is what the state setter made of the defined results of the
    transform so far: undefined as long as there was none, the most recent
    defined result when that result is not a function.  The handle is the
    handle created last ([None], that is null, when none was created), and
    a handle that is registered once the render is committed is the handle
    the render returned. *)
Theorem C8_output_pair es p :
  (useMutationObserver p (final es)).1 =
    inr (derived (log (final es)), hd_error (created (log (final es)))) /\
  (defined_results (log (final es)) = 0 -> derived (log (final es)) = None) /\
  (forall v, last_result (log (final es)) = Some (Plain v) ->
     derived (log (final es)) = Some v) /\
  (forall h, h ∈ registered (log (useMutationObserver p (final es)).2) ->
     hd_error (created (log (final es))) = Some h).
Proof.
  pose proof (LogInv_final es) as L. pose proof (Core_final es) as C.
  rewrite render_closed_form by done. cbn [fst snd].
  rewrite (log_value _ L), (log_created _ L). split; [done|].
  rewrite <- (log_value _ L). split; [|split].
  - generalize (log (final es)). intros l.
    induction l as [|c l IH]; [done|].
    destruct c as [| | | | |id b o [r|]]; simpl; try done.
  - generalize (log (final es)). intros l v.
    induction l as [|c l IH]; [done|].
    destruct c as [| | | | |id b o [r|]]; simpl; try done.
    by intros [= ->].
  - intros h. cbn [log rendered].
    rewrite (registered_after_cleanup_render es p).
    destruct (observer (final es)) as [o|], (target p) as [t|];
      try by intros ?%elem_of_nil.
    destruct (observe_check t _); [by intros ?%elem_of_nil|].
    by intros ->%list_elem_of_singleton.
Qed.

(** C9. A render that omits the options, whatever the renders before it
    passed, gives every call of [observe] it makes exactly
    [{ attributes: true }]: attributes on, every other key absent; and it
    makes that call on the handle of the cell whenever it has a target. *)
Theorem C9_default_options es p :
  options p = None ->
  exists calls,
    log (step (Render p) (final es)).2 = calls ++ log (final es) /\
    (forall h t o r, Observe h t o r ∈ calls ->
       o = {| attributes := Some true; attributeOldValue := None;
              attributeFilter := None; characterData := None;
              characterDataOldValue := None; childList := None;
              subtree := None; extra := [] |}) /\
    (forall h t,
       unmounted (final es) = false ->
       observer (final es) = Some h ->
       target p = Some t ->
       Observe h t defaultMutationObserverOptions
         (observe_check t defaultMutationObserverOptions) ∈ calls).
Proof.
  intros Hopt. pose proof (Core_final es) as C.
  destruct (unmounted (final es)) eqn:Hu.
  { exists []. unfold step, bind, get. rewrite Hu. simpl.
    split; [done|]. split; [by intros ???? ?%elem_of_nil|done]. }
  rewrite step_render by done. cbn [log rendered]. rewrite Hopt. simpl.
  exists (observe_calls (observer (final es)) (target p) defaultMutationObserverOptions
            ++ NewObserver (next (final es)) (closure_of p (final es))
            :: cleanup_calls (cleanup2 (final es))).
  split; [by rewrite <- app_assoc|]. split.
  - intros h t o r. rewrite elem_of_app, elem_of_cons. intros [Hin|[Hin|Hin]].
    + unfold observe_calls in Hin.
      destruct (observer (final es)), (target p); try by apply elem_of_nil in Hin.
      destruct (observe_check _ _).
      * apply elem_of_cons in Hin as [Hin|Hin]; [done|].
        apply list_elem_of_singleton in Hin. by injection Hin as _ _ -> _.
      * apply list_elem_of_singleton in Hin. by injection Hin as _ _ -> _.
    + done.
    + destruct (cleanup2 (final es)) as [[[o'|]]|]; simpl in Hin;
        try by apply elem_of_nil in Hin.
      by apply list_elem_of_singleton in Hin.
  - intros h t _ Ho Ht. apply elem_of_app. left.
    unfold observe_calls. rewrite Ho, Ht.
    destruct (observe_check t _); [right|]; by left.
Qed.

(** C10. A batch handed to a [handleChanges] that captured a null observer
    changes nothing: no invocation of the transform, no stored value, no
    warning, whatever the callback is.  The callback of the first handle
    created is such a closure, so a batch delivered through handle 0 leaves
    the instance as it was. *)
Theorem C10_null_observer_ignores_batch i cb batch s es :
  handleChanges {| hc_id := i; hc_observer := None; hc_callback := cb |} batch s
    = (inr tt, s) /\
  first_closure_observer (final es) = None /\
  step (Notify 0 batch) (final es) = (inr tt, final es).
Proof.
  split; [done|].
  assert (H0 : first_closure_observer (final es) = None).
  { unfold first_closure_observer.
    destruct (heap (final es) !! 0) as [mo|] eqn:E; [|done].
    by rewrite (closure_captures_previous es 0 mo E). }
  split; [done|].
  change (step (Notify 0 batch) (final es)) with (notify 0 batch (final es)).
  rewrite notify_closed_form.
  destruct (heap _ !! _) as [mo|] eqn:E; [|done].
  destruct (is_observing _ _); [|done].
  rewrite handleChanges_closed_form.
  by rewrite (closure_captures_previous es 0 mo E).
Qed.

End Claims.

(** ** More of what the hook does *)

Section Further.

Context {T : Type} {browser : Browser}.
Implicit Types (s : Instance T) (p : Props T) (e : Event T) (es : list (Event T)).

(** *** Counting the calls of a render *)

Lemma created_rendered s p :
  created (log (rendered p s)) = next s :: created (log s).
Proof.
  cbn [log rendered]. unfold observe_calls.
  assert (Hc : created (cleanup_calls (cleanup2 s) ++ log s) = created (log s)).
  { by destruct (cleanup2 s) as [[[o|]]|]. }
  destruct (observer s), (target p); simpl; rewrite ?Hc; try done.
  destruct (observe_check _ _); simpl; by rewrite Hc.
Qed.

Lemma observes_rendered s p h :
  observes h (log (rendered p s)) =
  observes h (log s) +
  match observer s, target p with
  | Some o, Some _ => if bool_decide (o = h) then 1 else 0
  | _, _ => 0
  end.
Proof.
  cbn [log rendered]. unfold observe_calls.
  assert (Hc : observes h (cleanup_calls (cleanup2 s) ++ log s) = observes h (log s)).
  { by destruct (cleanup2 s) as [[[o|]]|]. }
  destruct (observer s), (target p); simpl; rewrite ?Hc; try lia.
  destruct (observe_check _ _); simpl; rewrite Hc; lia.
Qed.

Lemma disconnects_cleanup (c : option Cleanup) (l : list (Call T)) h :
  disconnects h (cleanup_calls c ++ l) =
  disconnects h l +
  match c with
  | Some {| cl_observer := Some o |} => if bool_decide (o = h) then 1 else 0
  | _ => 0
  end.
Proof. destruct c as [[[o|]]|]; simpl; lia. Qed.

Lemma disconnects_rendered s p h :
  disconnects h (log (rendered p s)) =
  disconnects h (log s) +
  match cleanup2 s with
  | Some {| cl_observer := Some o |} => if bool_decide (o = h) then 1 else 0
  | _ => 0
  end.
Proof.
  cbn [log rendered]. unfold observe_calls.
  rewrite <- disconnects_cleanup.
  destruct (observer s), (target p); simpl; try done.
  by destruct (observe_check _ _).
Qed.

Lemma pending_cleanup_not_disconnected s h :
  LogInv s -> cleanup2 s = Some {| cl_observer := Some h |} ->
  disconnects h (log s) = 0.
Proof.
  intros L Hc. by destruct (log_disconnects s L h) as [?|(_ & _ & ?)].
Qed.

(** *** The invariant on calls *)

Lemma CallInv_initial : CallInv (@initial T).
Proof. constructor; simpl; [done|]. intros h. repeat split; (lia || done). Qed.

Lemma CallInv_rendered s p :
  Core s -> LogInv s -> CallInv s -> CallInv (rendered p s).
Proof.
  intros C L [Hcr Hobs]. constructor.
  - rewrite created_rendered. simpl. by rewrite Hcr.
  - intros h. rewrite observes_rendered, disconnects_rendered.
    destruct (Hobs h) as (H1 & H2 & H3 & H4).
    cbn [renders cleanup2 rendered].
    match goal with
    | |- context [disconnects h (log s) + ?x] => set (d := x)
    end.
    match goal with
    | |- context [observes h (log s) + ?x] => set (a := x)
    end.
    assert (Hd : d = 0 \/
                 (d = 1 /\ disconnects h (log s) = 0 /\ observes h (log s) = 1)).
    { subst d. destruct (cleanup2 s) as [[[o|]]|] eqn:E; auto.
      case_bool_decide; auto. subst. right. split; [done|].
      split; [|by apply H4]. apply pending_cleanup_not_disconnected; [done|].
      by rewrite E. }
    assert (Ha : a = 0 \/ (a = 1 /\ renders s = S h)).
    { subst a. destruct (observer s) as [o|] eqn:Eo, (target p) as [t|]; auto.
      case_bool_decide; auto. subst. right. split; [done|].
      by apply observer_is_last. }
    assert (Hc : match observer s, target p with
                 | Some o, Some _ => Some {| cl_observer := Some o |}
                 | _, _ => None
                 end = Some {| cl_observer := Some h |} -> a = 1).
    { subst a. destruct (observer s) as [o|], (target p) as [t|]; try done.
      intros [= ->]. by rewrite bool_decide_eq_true_2. }
    clearbody a d. repeat split; try lia.
    intros Hc'. specialize (Hc Hc'). lia.
Qed.

Lemma CallInv_unmounted s : LogInv s -> CallInv s -> CallInv (unmounted_state s).
Proof.
  intros L [Hcr Hobs]. constructor.
  - cbn [log unmounted_state renders]. rewrite <- Hcr.
    by destruct (cleanup2 s) as [[[o|]]|].
  - intros h. cbn [log unmounted_state renders cleanup2].
    rewrite disconnects_cleanup.
    assert (Ho : observes h (cleanup_calls (cleanup2 s) ++ log s) = observes h (log s)).
    { by destruct (cleanup2 s) as [[[o|]]|]. }
    rewrite Ho. destruct (Hobs h) as (H1 & H2 & H3 & H4).
    repeat split; try done.
    destruct (cleanup2 s) as [[[o|]]|] eqn:E; try lia.
    case_bool_decide; [|lia]. subst.
    rewrite (pending_cleanup_not_disconnected s h L) by by rewrite E.
    rewrite H4 by done. lia.
Qed.

Lemma CallInv_handleChanges (hc : Closure T) batch s :
  CallInv s -> CallInv (handleChanges hc batch s).2.
Proof.
  intros I. rewrite handleChanges_closed_form. cbn [snd].
  destruct (hc_observer hc) as [obs|]; [|done].
  destruct (hc_callback hc) as [| |id f]; try (constructor; apply I).
  destruct (f batch obs); constructor; apply I.
Qed.

Lemma CallInv_step e s :
  Core s -> LogInv s /\ CallInv s -> LogInv (step e s).2 /\ CallInv (step e s).2.
Proof.
  intros C [L I]. split; [by apply LogInv_step|].
  destruct e as [p|h batch|].
  - destruct (unmounted s) eqn:Hu.
    + unfold step, bind, get. by rewrite Hu.
    + rewrite step_render by done. by apply CallInv_rendered.
  - rewrite step_notify. destruct (heap s !! h); [|done].
    destruct (is_observing s h); [|done]. by apply CallInv_handleChanges.
  - destruct (unmounted s) eqn:Hu.
    + unfold step, bind, get. by rewrite Hu.
    + rewrite step_unmount by done. by apply CallInv_unmounted.
Qed.

Lemma CallInv_final es : CallInv (final es).
Proof.
  apply (final_invariant (fun _ => True) (fun s => LogInv s /\ CallInv s)).
  - split; [apply LogInv_initial|apply CallInv_initial].
  - intros e s _. apply CallInv_step.
  - by apply Forall_forall.
Qed.

Lemma unmounted_idle s h : Core s -> unmounted s = true -> is_observing s h = false.
Proof.
  intros C Hu. destruct (is_observing s h) eqn:E; [|done].
  pose proof (core_heap_observing s C h E) as Hc.
  pose proof (core_cleanup s C) as Hcl. rewrite Hc in Hcl.
  destruct Hcl as [Hcl _]. congruence.
Qed.

Lemma idle_stays_idle_after_cleanup (c : option Cleanup)
    (m : gmap handle (MutationObserver T)) h cb :
  m !! h = Some {| mo_callback := cb; mo_targets := [] |} ->
  cleanup_heap c m !! h = Some {| mo_callback := cb; mo_targets := [] |}.
Proof.
  intros Hl. unfold cleanup_heap. destruct c as [[[o|]]|]; try done.
  rewrite lookup_alter. destruct (decide (o = h)) as [->|]; [|done].
  by rewrite Hl.
Qed.

(** *** Properties *)

(** Every render of a mounted instance creates one handle and schedules
    another render, whatever its props are, so that the handles created in a
    run are as many as its renders. *)
Theorem every_render_creates_and_reschedules es p :
  unmounted (final es) = false ->
  created (log (step (Render p) (final es)).2)
    = next (final es) :: created (log (final es)) /\
  length (created (log (step (Render p) (final es)).2))
    = renders (step (Render p) (final es)).2 /\
  length (created (log (final es))) = renders (final es) /\
  pending (step (Render p) (final es)).2 = true.
Proof.
  intros Hu. pose proof (Core_final es) as C.
  pose proof (calls_created _ (CallInv_final es)) as Hn.
  rewrite step_render by done. rewrite created_rendered.
  repeat split; try done. simpl. by rewrite Hn.
Qed.

(** The handle a render registers was created by the render before and
    calls the transform of that render; the target and the options it is
    registered with are those of the render that registers it. *)
Theorem registered_handle_has_previous_transform es p1 p2 t :
  unmounted (final es) = false ->
  target p2 = Some t ->
  observe_check t (deref (resolve_options (options p2))) = None ->
  registered (log (final (es ++ [Render p1; Render p2]))) = [next (final es)] /\
  exists mo,
    heap (final (es ++ [Render p1; Render p2])) !! next (final es) = Some mo /\
    hc_callback (mo_callback mo) = callback p1 /\
    mo_targets mo = [(t, deref (resolve_options (options p2)))].
Proof.
  intros Hu Ht Hok. pose proof (Core_final es) as C.
  set (s := final es) in *.
  assert (E1 : final (es ++ [Render p1]) = rendered p1 s).
  { rewrite final_snoc. by apply step_render. }
  assert (C1 : Core (rendered p1 s)) by by apply Core_rendered.
  assert (E2 : final (es ++ [Render p1; Render p2]) = rendered p2 (rendered p1 s)).
  { change (es ++ [Render p1; Render p2]) with (es ++ [Render p1] ++ [Render p2]).
    rewrite app_assoc, final_snoc, E1. by apply step_render. }
  split.
  - rewrite E2. cbn [log rendered].
    pose proof (registered_after_cleanup_render (es ++ [Render p1]) p2) as Hr.
    rewrite E1 in Hr. cbn [log rendered] in Hr. rewrite Hr.
    cbn [observer rendered]. by rewrite Ht, Hok.
  - assert (Hl1 : heap (rendered p1 s) !! next s
                  = Some {| mo_callback := closure_of p1 s; mo_targets := [] |}).
    { cbn [heap rendered]. unfold observe_heap.
      assert (Hi : forall m : gmap handle (MutationObserver T),
                <[next s := {| mo_callback := closure_of p1 s; mo_targets := [] |}]> m
                  !! next s
                = Some {| mo_callback := closure_of p1 s; mo_targets := [] |})
        by (intros m; apply lookup_insert_eq).
      destruct (observer s) as [o|] eqn:Eo, (target p1) as [t1|]; try apply Hi.
      destruct (observe_check t1 _); [apply Hi|].
      rewrite lookup_alter_ne; [apply Hi|].
      pose proof (observer_is_last s o C Eo). pose proof (core_next s C). lia. }
    rewrite E2. cbn [heap rendered observer next]. unfold observe_heap.
    rewrite Ht, Hok. rewrite lookup_alter_eq, lookup_insert_ne by lia.
    rewrite (idle_stays_idle_after_cleanup _ _ _ _ Hl1). simpl. eauto.
Qed.

(** A batch delivered through a registered handle whose callback holds a
    function reaches that function with the handle created just before the
    delivering one, and that handle is not registered; through the first
    handle it reaches nothing. *)
Theorem transform_gets_previous_idle_handle es h batch mo id f :
  heap (final es) !! h = Some mo ->
  is_observing (final es) h = true ->
  hc_callback (mo_callback mo) = CbFunction id f ->
  log (step (Notify h batch) (final es)).2 =
    match prev h with
    | Some o => Invoke id batch o (f batch o) :: log (final es)
    | None => log (final es)
    end /\
  match prev h with
  | Some o => is_observing (final es) o = false
  | None => True
  end.
Proof.
  intros Hl Hobs Hcb. pose proof (Core_final es) as C.
  rewrite step_notify, Hl, Hobs, handleChanges_closed_form. cbn [snd].
  rewrite (closure_captures_previous es h mo Hl), Hcb.
  destruct h as [|o]; simpl; [done|]. split.
  - by destruct (f batch o).
  - destruct (is_observing (final es) o) eqn:Eo; [|done].
    pose proof (core_heap_observing _ C _ Eo) as H1.
    pose proof (core_heap_observing _ C _ Hobs) as H2.
    rewrite H1 in H2. injection H2. lia.
Qed.

(** A render without a target calls [observe] on nothing: after it no handle
    is registered (the one that was has been disconnected) and no cleanup is
    pending, so discarding the instance then makes no call. *)
Theorem render_without_target_detaches es p :
  unmounted (final es) = false ->
  target p = None ->
  log (step (Render p) (final es)).2
    = NewObserver (next (final es)) (closure_of p (final es))
        :: cleanup_calls (cleanup2 (final es)) ++ log (final es) /\
  registered (log (step (Render p) (final es)).2) = [] /\
  cleanup2 (step (Render p) (final es)).2 = None /\
  log (step Unmount (step (Render p) (final es)).2).2
    = log (step (Render p) (final es)).2.
Proof.
  intros Hu Ht. pose proof (Core_final es) as C.
  pose proof (registered_after_cleanup_render es p) as Hr.
  rewrite step_render by done.
  assert (Hlog : log (rendered p (final es))
                 = NewObserver (next (final es)) (closure_of p (final es))
                     :: cleanup_calls (cleanup2 (final es)) ++ log (final es)).
  { cbn [log rendered]. unfold observe_calls. rewrite Ht.
    by destruct (observer (final es)). }
  assert (Hc : cleanup2 (rendered p (final es)) = None).
  { cbn [cleanup2 rendered]. rewrite Ht. by destruct (observer (final es)). }
  split; [done|]. split.
  { cbn [log rendered]. rewrite Hr, Ht. by destruct (observer (final es)). }
  split; [done|].
  rewrite step_unmount by done. cbn [log unmounted_state]. by rewrite Hc.
Qed.

(** In every run [observe] is called on a handle at most once and not
    before the render after the one that created it, [disconnect] is called
    on it at most once and only after [observe] was; on the handle held in
    the [observer] cell neither was called. *)
Theorem calls_on_a_handle es h :
  observes h (log (final es)) <= 1 /\
  disconnects h (log (final es)) <= observes h (log (final es)) /\
  (0 < observes h (log (final es)) -> S (S h) <= renders (final es)) /\
  match observer (final es) with
  | Some o => observes o (log (final es)) = 0 /\ disconnects o (log (final es)) = 0
  | None => True
  end.
Proof.
  pose proof (CallInv_final es) as I. pose proof (Core_final es) as C.
  destruct (calls_observes _ I h) as (H1 & H2 & H3 & _).
  repeat split; try done.
  destruct (observer (final es)) as [o|] eqn:Eo; [|done].
  pose proof (observer_is_last _ o C Eo) as Hn.
  destruct (calls_observes _ I o) as (_ & G2 & G3 & _).
  assert (observes o (log (final es)) = 0).
  { destruct (observes o (log (final es))); [done|].
    assert (S (S o) <= renders (final es)) by (apply G3; lia). lia. }
  split; [done|lia].
Qed.

(** When [observe] throws at a render, the cleanup is returned all the same:
    the handle, which is not registered, is disconnected at the next render
    and, if the instance is discarded instead, at the discard. *)
Theorem failed_registration_is_disconnected es p o t (err : Exn) p' :
  unmounted (final es) = false ->
  observer (final es) = Some o ->
  target p = Some t ->
  observe_check t (deref (resolve_options (options p))) = Some err ->
  registered (log (step (Render p) (final es)).2) = [] /\
  cleanup2 (step (Render p) (final es)).2 = Some {| cl_observer := Some o |} /\
  disconnects o (log (step (Render p) (final es)).2) = 0 /\
  disconnects o (log (step (Render p') (step (Render p) (final es)).2).2) = 1 /\
  log (step Unmount (step (Render p) (final es)).2).2
    = Disconnect o :: log (step (Render p) (final es)).2.
Proof.
  intros Hu Ho Ht He. pose proof (Core_final es) as C.
  pose proof (LogInv_final es) as L.
  pose proof (registered_after_cleanup_render es p) as Hr.
  rewrite step_render by done.
  assert (C1 : Core (rendered p (final es))) by by apply Core_rendered.
  assert (L1 : LogInv (rendered p (final es))) by by apply LogInv_rendered.
  assert (Hc : cleanup2 (rendered p (final es)) = Some {| cl_observer := Some o |}).
  { cbn [cleanup2 rendered]. by rewrite Ho, Ht. }
  assert (H0 : disconnects o (log (rendered p (final es))) = 0)
    by by apply pending_cleanup_not_disconnected.
  split. { cbn [log rendered]. by rewrite Hr, Ho, Ht, He. }
  split; [done|]. split; [done|]. split.
  - rewrite step_render by done. rewrite disconnects_rendered, H0, Hc.
    by rewrite bool_decide_eq_true_2.
  - rewrite step_unmount by done. cbn [log unmounted_state]. by rewrite Hc.
Qed.

(** A stored value gives way to undefined in one case only: a batch whose
    transform returns a function that returns undefined on the stored
    value.  No result that is not a function, no undefined result, no
    render and no discard empties the value cell. *)
Theorem value_emptied_only_by_function_result es e v :
  value (final es) = Some v ->
  value (step e (final es)).2 = None ->
  exists h batch mo id f obs g,
    e = Notify h batch /\
    heap (final es) !! h = Some mo /\
    is_observing (final es) h = true /\
    hc_callback (mo_callback mo) = CbFunction id f /\
    hc_observer (mo_callback mo) = Some obs /\
    f batch obs = Some (Updater g) /\
    g (Some v) = None.
Proof.
  intros Hv Hn. pose proof (Core_final es) as C.
  destruct e as [p|h batch|].
  - destruct (unmounted (final es)) eqn:Hu.
    + revert Hn. unfold step, bind, get. rewrite Hu. simpl. congruence.
    + rewrite step_render in Hn by done. simpl in Hn. congruence.
  - rewrite step_notify in Hn.
    destruct (heap (final es) !! h) as [mo|] eqn:Hl; [|congruence].
    destruct (is_observing (final es) h) eqn:Hobs; [|congruence].
    rewrite handleChanges_closed_form in Hn. cbn [snd] in Hn.
    destruct (hc_observer _) as [obs|] eqn:Eo; [|congruence].
    destruct (hc_callback _) as [| |id f] eqn:Ec; try (simpl in Hn; congruence).
    destruct (f batch obs) as [[w|g]|] eqn:Ef; simpl in Hn; try congruence.
    rewrite Hv in Hn. by exists h, batch, mo, id, f, obs, g.
  - destruct (unmounted (final es)) eqn:Hu.
    + revert Hn. unfold step, bind, get. rewrite Hu. simpl. congruence.
    + rewrite step_unmount in Hn by done. simpl in Hn. congruence.
Qed.

(** Discarding an instance is final, whatever state it is in (nothing
    registered, a failed registration, discarded already): every later
    render, notification or discard returns and changes nothing. *)
Theorem discard_is_final es es' :
  steps es' (step Unmount (final es)).2
    = (inr tt, (step Unmount (final es)).2) /\
  unmounted (step Unmount (final es)).2 = true /\
  registered (log (step Unmount (final es)).2) = [].
Proof.
  pose proof (Core_final es) as C.
  assert (C' : Core (step Unmount (final es)).2) by by apply Core_step.
  assert (L' : LogInv (step Unmount (final es)).2)
    by (apply LogInv_step; [done|apply LogInv_final]).
  assert (Hu : unmounted (step Unmount (final es)).2 = true).
  { destruct (unmounted (final es)) eqn:E.
    - unfold step, bind, get. by rewrite E.
    - by rewrite step_unmount. }
  assert (Hidle : forall h, is_observing (step Unmount (final es)).2 h = false).
  { intros h. by apply unmounted_idle. }
  split; [|split; [done|]].
  - generalize dependent (step Unmount (final es)).2. intros s' _ _ Hu Hidle.
    induction es' as [|e es' IH]; [done|].
    cbn [steps]. unfold bind. by rewrite step_when_unmounted.
  - destruct (registered (log (step Unmount (final es)).2)) as [|h r] eqn:E; [done|].
    assert (Hin : h ∈ registered (log (step Unmount (final es)).2))
      by (rewrite E; by left).
    apply (log_registered _ L') in Hin. by rewrite Hidle in Hin.
Qed.

End Further.

(** ** The claims on concrete runs *)

(** The first handle is registered at the second render, with a transform
    that is a function; a batch it delivers is dropped all the same. *)
Example first_handle_drops_batches :
  is_observing (example_final two_renders) 0 = true /\
  registered (log (example_final two_renders)) = [0] /\
  created (log (example_final two_renders)) = [1; 0] /\
  invocations
    (log (example_step (Notify 0 [class_changed]) (example_final two_renders)).2) = [] /\
  warnings
    (log (example_step (Notify 0 [class_changed]) (example_final two_renders)).2) = 0.
Proof. vm_compute. repeat split. Qed.

(** C1 as stated fails after two renders: handles 0 and 1 both exist and
    [disconnect] was called on neither; handle 1, the replacement, was
    created while handle 0 was not disconnected, and handle 0 is registered
    after that. *)
Lemma C1_two_handles_not_disconnected :
  created (log (example_final two_renders)) = [1; 0] /\
  disconnects 0 (log (example_final two_renders)) = 0 /\
  disconnects 1 (log (example_final two_renders)) = 0 /\
  live (log (example_final two_renders)) = [1; 0] /\
  registered (log (example_final two_renders)) = [0] /\
  ~ always at_most_one_live (log (example_final two_renders)) /\
  ~ always created_after_disconnect (log (example_final two_renders)).
Proof.
  repeat (split; [vm_compute; reflexivity|]). split.
  - intros H%always_here. vm_compute in H. lia.
  - intros H. vm_compute in H. destruct H as (_ & H & _). discriminate H.
Qed.

(** C2, at the failing input: three renders with the same props, so that
    neither the transform nor the options changed identity.  Every render
    made a handle and scheduled another render, and the batch that handle 1
    delivers reaches the transform with handle 0, which is neither the
    handle that delivers nor the one in the cell, and is disconnected. *)
Theorem C2_handle_created_at_every_render :
  created (log (example_final one_render)) = [0] /\
  created (log (example_final two_renders)) = [1; 0] /\
  created (log (example_final three_renders)) = [2; 1; 0] /\
  pending (example_final three_renders) = true /\
  registered (log (example_final three_renders)) = [1] /\
  observer (example_final three_renders) = Some 2 /\
  disconnects 0 (log (example_final three_renders)) = 1 /\
  passed_handles
    (log (example_step (Notify 1 [class_changed]) (example_final three_renders)).2) = [0].
Proof. vm_compute. repeat split. Qed.

(** C3 on a run: the batch of one record that handle 1 delivers replaces
    the value, the empty batch, on which the transform returns undefined,
    does not. *)
Lemma C3_value_replaced_witness :
  value (example_step (Notify 1 [class_changed]) (example_final three_renders)).2
    <> value (example_final three_renders) /\
  (exists r,
     value (example_step (Notify 1 [class_changed]) (example_final three_renders)).2
       = next_value r (value (example_final three_renders))) /\
  value (example_step (Notify 1 []) (example_final three_renders)).2
    = value (example_final three_renders).
Proof.
  assert (Hne : value (example_step (Notify 1 [class_changed])
                         (example_final three_renders)).2
                <> value (example_final three_renders)).
  { vm_compute. discriminate. }
  split; [exact Hne|]. split.
  - destruct (proj1 (C3_value_replaced_only_by_defined_result
                       (browser := example_browser)
                       (example_final three_renders) 1 [class_changed]
                       [] with_transform) Hne)
      as (mo & id & f & obs & r & _ & _ & _ & _ & Hv).
    exists r. exact Hv.
  - eapply (proj1 (proj2 (C3_value_replaced_only_by_defined_result
                             (browser := example_browser)
                             (example_final three_renders) 1 []
                             [] with_transform)));
      vm_compute; reflexivity.
Defined.



(** C5 on a run: the second render has element 0 as target, which is not a
    Node. *)
Lemma C5_registration_failure_witness :
  unmounted (example_final one_render) = false /\
  observer (example_final one_render) = Some 0 /\
  dom_observe_check 0 defaultMutationObserverOptions
    = Some "TypeError: parameter 1 is not of type 'Node'" /\
  (example_step (Render on_invalid_target) (example_final one_render)).1 = inr tt /\
  is_observing
    (example_step (Render on_invalid_target) (example_final one_render)).2 0 = false.
Proof.
  assert (H1 : unmounted (example_final one_render) = false)
    by (vm_compute; reflexivity).
  assert (H2 : observer (example_final one_render) = Some 0)
    by (vm_compute; reflexivity).
  assert (H3 : dom_observe_check 0 defaultMutationObserverOptions
               = Some "TypeError: parameter 1 is not of type 'Node'")
    by (vm_compute; reflexivity).
  split; [exact H1|]. split; [exact H2|]. split; [exact H3|].
  destruct (C5_registration_failure (browser := example_browser)
              one_render on_invalid_target 0 0
              "TypeError: parameter 1 is not of type 'Node'"
              with_transform 1 H1 H2 eq_refl H3 eq_refl)
    as (Hr & _ & _ & Hidle & _).
  split; [exact Hr|exact Hidle].
Defined.

(** C6 as stated fails when the third render changes the options: before
    it handles 0 and 1 exist and neither is disconnected, after it handles 1
    and 2 do, handle 2 having been created while handle 1 was not
    disconnected. *)
Lemma C6_two_handles_across_config_change :
  live (log (example_final two_renders)) = [1; 0] /\
  live (log (example_final options_changed_at_third_render)) = [2; 1] /\
  disconnects 1 (log (example_final options_changed_at_third_render)) = 0 /\
  registered (log (example_final options_changed_at_third_render)) = [1] /\
  ~ always at_most_one_live (log (example_final options_changed_at_third_render)).
Proof.
  repeat (split; [vm_compute; reflexivity|]).
  intros H%always_here. vm_compute in H. lia.
Qed.

(** C6 on a run: the third render passes an options object of the caller
    where the second had none. *)
Lemma C6_config_change_witness :
  unmounted (example_final (one_render ++ [Render with_transform])) = false /\
  same_options (resolve_options (options with_transform))
    (resolve_options (options with_child_list)) = false /\
  registered (log (example_final (one_render ++ [Render with_transform]))) = [0] /\
  disconnects 0
    (log (example_step (Render with_child_list)
            (example_final (one_render ++ [Render with_transform]))).2) = 1 /\
  created
    (log (example_step (Render with_child_list)
            (example_final (one_render ++ [Render with_transform]))).2) = [2; 1; 0].
Proof.
  assert (H1 : unmounted (example_final (one_render ++ [Render with_transform])) = false)
    by (vm_compute; reflexivity).
  assert (H2 : same_options (resolve_options (options with_transform))
                 (resolve_options (options with_child_list)) = false)
    by (vm_compute; reflexivity).
  assert (H3 : registered (log (example_final (one_render ++ [Render with_transform]))) = [0])
    by (vm_compute; reflexivity).
  split; [exact H1|]. split; [exact H2|]. split; [exact H3|].
  destruct (C6_config_change (browser := example_browser)
              one_render with_transform with_child_list 0 0 [] H1 H2 H3)
    as (H0 & Hd & Hc & _).
  split.
  - rewrite Hd. vm_compute. reflexivity.
  - rewrite Hc. vm_compute. reflexivity.
Defined.

(** C7 on a run: handle 0 is registered when the instance is discarded. *)
Lemma C7_discard_witness :
  registered (log (example_final two_renders)) = [0] /\
  disconnects 0 (log (example_step Unmount (example_final two_renders)).2) = 1 /\
  steps (browser := example_browser)
    [Notify 0 [class_changed]; Render with_transform; Unmount]
    (example_step Unmount (example_final two_renders)).2
  = (inr tt, (example_step Unmount (example_final two_renders)).2).
Proof.
  assert (H1 : registered (log (example_final two_renders)) = [0])
    by (vm_compute; reflexivity).
  split; [exact H1|].
  destruct (C7_discard (browser := example_browser) two_renders 0
              [Notify 0 [class_changed]; Render with_transform; Unmount] H1)
    as (_ & _ & Hd & _ & Hs).
  split; [exact Hd|exact Hs].
Defined.

(** C8 as stated fails when the transform returns a function.  On one
    record the transform returns the function that returns undefined: a
    defined result was returned, and the next render still returns
    undefined.  On two records it returns a function that adds 2: the next
    render returns 2, which is not the result. *)
Lemma C8_function_result_is_applied :
  defined_results
    (log (example_step (Notify 1 [class_changed])
            (example_final three_renders_with_function_result)).2) = 1 /\
  (useMutationObserver (browser := example_browser) with_function_result
     (example_step (Notify 1 [class_changed])
        (example_final three_renders_with_function_result)).2).1
    = inr (None, Some 2) /\
  defined_results
    (log (example_step (Notify 1 [class_changed; class_changed])
            (example_final three_renders_with_function_result)).2) = 1 /\
  (useMutationObserver (browser := example_browser) with_function_result
     (example_step (Notify 1 [class_changed; class_changed])
        (example_final three_renders_with_function_result)).2).1
    = inr (Some 2, Some 2).
Proof. vm_compute. repeat split. Qed.

(** C8, amended, on a run: the third render returns handle 1 and registers
    it. *)
Lemma C8_output_pair_witness :
  1 ∈ registered
        (log (useMutationObserver (browser := example_browser) with_transform
                (example_final two_renders)).2) /\
  hd_error (created (log (example_final two_renders))) = Some 1.
Proof.
  assert (H1 : 1 ∈ registered
                     (log (useMutationObserver (browser := example_browser)
                             with_transform (example_final two_renders)).2)).
  { vm_compute. apply list_elem_of_here. }
  split; [exact H1|].
  exact (proj2 (proj2 (proj2 (C8_output_pair (browser := example_browser)
                                two_renders with_transform))) 1 H1).
Defined.

(** C9 on a run: the third render omits the options that the first two
    passed, and registers handle 1 with the default options. *)
Lemma C9_default_options_witness :
  options with_transform = None /\
  unmounted (example_final options_dropped_at_third_render) = false /\
  observer (example_final options_dropped_at_third_render) = Some 1 /\
  target with_transform = Some 1 /\
  Observe 1 1 defaultMutationObserverOptions None
    ∈ log (example_step (Render with_transform)
             (example_final options_dropped_at_third_render)).2.
Proof.
  assert (H2 : unmounted (example_final options_dropped_at_third_render) = false)
    by (vm_compute; reflexivity).
  assert (H3 : observer (example_final options_dropped_at_third_render) = Some 1)
    by (vm_compute; reflexivity).
  split; [reflexivity|]. split; [exact H2|]. split; [exact H3|].
  split; [reflexivity|].
  destruct (C9_default_options (browser := example_browser)
              options_dropped_at_third_render with_transform eq_refl)
    as (calls & Hlog & _ & Hin).
  rewrite Hlog. apply elem_of_app. left.
  exact (Hin 1 1 H2 H3 eq_refl).
Defined.

(** ** Further properties on concrete runs *)

(** A third render with the props of the first two creates handle 2 and
    schedules a fourth. *)
Lemma every_render_creates_and_reschedules_witness :
  unmounted (example_final two_renders) = false /\
  created (log (example_step (Render with_transform) (example_final two_renders)).2)
    = [2; 1; 0] /\
  pending (example_step (Render with_transform) (example_final two_renders)).2 = true.
Proof.
  assert (H1 : unmounted (example_final two_renders) = false)
    by (vm_compute; reflexivity).
  split; [exact H1|].
  destruct (every_render_creates_and_reschedules (browser := example_browser)
              two_renders with_transform H1) as (Hc & _ & _ & Hp).
  split; [|exact Hp]. rewrite Hc. vm_compute. reflexivity.
Defined.

(** The second render passes a transform and the third none: the handle the
    third render registers is the one the second created. *)
Lemma registered_handle_has_previous_transform_witness :
  unmounted (example_final one_render) = false /\
  target without_transform = Some 1 /\
  dom_observe_check 1 (deref (resolve_options (options without_transform))) = None /\
  registered
    (log (example_final (one_render ++ [Render with_transform; Render without_transform])))
    = [1].
Proof.
  assert (H1 : unmounted (example_final one_render) = false)
    by (vm_compute; reflexivity).
  assert (H3 : dom_observe_check 1
                 (deref (resolve_options (options without_transform))) = None)
    by (vm_compute; reflexivity).
  split; [exact H1|]. split; [reflexivity|]. split; [exact H3|].
  destruct (registered_handle_has_previous_transform (browser := example_browser)
              one_render with_transform without_transform 1 H1 eq_refl H3)
    as (Hr & _).
  rewrite Hr. vm_compute. reflexivity.
Defined.

(** The batch that handle 1 delivers after three renders reaches the
    transform with handle 0, which is not registered. *)
Lemma transform_gets_previous_idle_handle_witness :
  is_observing (example_final three_renders) 1 = true /\
  is_observing (example_final three_renders) 0 = false /\
  passed_handles
    (log (example_step (Notify 1 [class_changed]) (example_final three_renders)).2)
    = [0].
Proof.
  assert (H2 : is_observing (example_final three_renders) 1 = true)
    by (vm_compute; reflexivity).
  split; [exact H2|].
  edestruct (transform_gets_previous_idle_handle (browser := example_browser)
               three_renders 1 [class_changed]) as (Hlog & Hidle);
    [reflexivity|exact H2|reflexivity|].
  split; [exact Hidle|]. rewrite Hlog. vm_compute. reflexivity.
Defined.

(** A third render without a target: handle 0 is disconnected and nothing
    is registered afterwards. *)
Lemma render_without_target_detaches_witness :
  unmounted (example_final two_renders) = false /\
  target without_target = None /\
  registered (log (example_final two_renders)) = [0] /\
  registered (log (example_step (Render without_target) (example_final two_renders)).2)
    = [] /\
  cleanup2 (example_step (Render without_target) (example_final two_renders)).2 = None.
Proof.
  assert (H1 : unmounted (example_final two_renders) = false)
    by (vm_compute; reflexivity).
  split; [exact H1|]. split; [reflexivity|].
  split; [vm_compute; reflexivity|].
  destruct (render_without_target_detaches (browser := example_browser)
              two_renders without_target H1 eq_refl) as (_ & Hr & Hc & _).
  split; [exact Hr|exact Hc].
Defined.

(** The second render has element 0 as target: [observe] throws, and the
    third render disconnects handle 0 all the same. *)
Lemma failed_registration_is_disconnected_witness :
  unmounted (example_final one_render) = false /\
  observer (example_final one_render) = Some 0 /\
  dom_observe_check 0 (deref (resolve_options (options on_invalid_target)))
    = Some "TypeError: parameter 1 is not of type 'Node'" /\
  disconnects 0
    (log (example_step (Render with_transform)
            (example_step (Render on_invalid_target) (example_final one_render)).2).2)
    = 1.
Proof.
  assert (H1 : unmounted (example_final one_render) = false)
    by (vm_compute; reflexivity).
  assert (H2 : observer (example_final one_render) = Some 0)
    by (vm_compute; reflexivity).
  assert (H4 : dom_observe_check 0 (deref (resolve_options (options on_invalid_target)))
               = Some "TypeError: parameter 1 is not of type 'Node'")
    by (vm_compute; reflexivity).
  split; [exact H1|]. split; [exact H2|]. split; [exact H4|].
  destruct (failed_registration_is_disconnected (browser := example_browser)
              one_render on_invalid_target 0 0
              "TypeError: parameter 1 is not of type 'Node'" with_transform
              H1 H2 eq_refl H4) as (_ & _ & _ & Hd & _).
  exact Hd.
Defined.

(** The value 2 is in the cell when handle 1 delivers one record: the
    transform returns the function that returns undefined, and the cell is
    empty afterwards. *)
Lemma value_emptied_only_by_function_result_witness :
  value (example_final
           (three_renders_with_function_result
              ++ [Notify 1 [class_changed; class_changed]])) = Some 2 /\
  value (example_step (Notify 1 [class_changed])
           (example_final
              (three_renders_with_function_result
                 ++ [Notify 1 [class_changed; class_changed]]))).2 = None /\
  exists h batch mo id f obs g,
    (Notify 1 [class_changed] : Event nat) = Notify h batch /\
    heap (example_final
            (three_renders_with_function_result
               ++ [Notify 1 [class_changed; class_changed]])) !! h = Some mo /\
    is_observing
      (example_final
         (three_renders_with_function_result
            ++ [Notify 1 [class_changed; class_changed]])) h = true /\
    hc_callback (mo_callback mo) = CbFunction id f /\
    hc_observer (mo_callback mo) = Some obs /\
    f batch obs = Some (Updater g) /\
    g (Some 2) = None.
Proof.
  assert (H1 : value (example_final
                        (three_renders_with_function_result
                           ++ [Notify 1 [class_changed; class_changed]])) = Some 2)
    by (vm_compute; reflexivity).
  assert (H2 : value (example_step (Notify 1 [class_changed])
                        (example_final
                           (three_renders_with_function_result
                              ++ [Notify 1 [class_changed; class_changed]]))).2 = None)
    by (vm_compute; reflexivity).
  split; [exact H1|]. split; [exact H2|].
  exact (value_emptied_only_by_function_result (browser := example_browser)
           (three_renders_with_function_result
              ++ [Notify 1 [class_changed; class_changed]])
           (Notify 1 [class_changed]) 2 H1 H2).
Defined.
